(** * Door access controller (Project/Project.ino): a shallow embedding

    The sketch is a single-threaded Arduino program: global variables, an
    EEPROM holding the credential store, three polled inputs (card reader,
    distance sensor, gas sensor), two buttons and the motor outputs.  It is
    embedded as a state-and-outcome monad over one record of globals.  Inputs
    are read from per-device sample sequences with a cursor each; everything
    the program does to the outside (pin writes, delays, console lines) is
    appended to a trace, newest event first. *)

From Stdlib Require Import String ZArith List Bool Lia.
Import ListNotations.
Open Scope Z_scope.

(** ** Data *)

(** [byte x[4]]: the three UID buffers of the sketch. *)
Record card := mkCard { c0 : Z; c1 : Z; c2 : Z; c3 : Z }.

(** [c[k]] for [k] in 0..3 (the sketch never indexes outside). *)
Definition card_get (c : card) (k : Z) : Z :=
  if k =? 0 then c0 c else if k =? 1 then c1 c else if k =? 2 then c2 c else c3 c.

(** [c[k] = v]. *)
Definition card_set (c : card) (k v : Z) : card :=
  if k =? 0 then mkCard v (c1 c) (c2 c) (c3 c)
  else if k =? 1 then mkCard (c0 c) v (c2 c) (c3 c)
  else if k =? 2 then mkCard (c0 c) (c1 c) v (c3 c)
  else mkCard (c0 c) (c1 c) (c2 c) v.

Definition card_eqb (a b : card) : bool :=
  (c0 a =? c0 b) && (c1 a =? c1 b) && (c2 a =? c2 b) && (c3 a =? c3 b).

(** The pins the sketch names with [#define]. *)
Inductive pin := wipeB | userOpen | rc | motHigh | motLow.

Definition LOW : bool := false.
Definition HIGH : bool := true.

(** What the program does to the outside world. *)
Inductive event :=
| DigitalWrite (p : pin) (level : bool)
| Delay (ms : Z)
| Serial (msg : string)
| SerialNum (n : Z).

(** The polled inputs: the n-th answer of each device.  [picc n] is [None]
    when [PICC_IsNewCardPresent] or [PICC_ReadCardSerial] fails. *)
Record inputs := mkInputs {
  picc : nat -> option card;
  distance : nat -> Z;
  smoke : nat -> Z;
  userOpen_level : nat -> bool;
  wipeB_level : nat -> bool }.

(** The globals of the sketch, the EEPROM, the input cursors and the trace. *)
Record state := mkState {
  eeprom : list Z;
  matchF : bool;            (* boolean match *)
  programMode : bool;
  successRead : Z;
  storedCard : card;
  readCard : card;
  masterCard : card;
  env : inputs;
  n_picc : nat;
  n_dist : nat;
  n_smoke : nat;
  n_userOpen : nat;
  n_wipeB : nat;
  trace : list event }.

Definition set_eeprom (v : list Z) (s : state) : state :=
  mkState v (matchF s) (programMode s) (successRead s) (storedCard s) (readCard s)
    (masterCard s) (env s) (n_picc s) (n_dist s) (n_smoke s) (n_userOpen s) (n_wipeB s) (trace s).
Definition set_matchF (v : bool) (s : state) : state :=
  mkState (eeprom s) v (programMode s) (successRead s) (storedCard s) (readCard s)
    (masterCard s) (env s) (n_picc s) (n_dist s) (n_smoke s) (n_userOpen s) (n_wipeB s) (trace s).
Definition set_programMode (v : bool) (s : state) : state :=
  mkState (eeprom s) (matchF s) v (successRead s) (storedCard s) (readCard s)
    (masterCard s) (env s) (n_picc s) (n_dist s) (n_smoke s) (n_userOpen s) (n_wipeB s) (trace s).
Definition set_successRead (v : Z) (s : state) : state :=
  mkState (eeprom s) (matchF s) (programMode s) v (storedCard s) (readCard s)
    (masterCard s) (env s) (n_picc s) (n_dist s) (n_smoke s) (n_userOpen s) (n_wipeB s) (trace s).
Definition set_storedCard (v : card) (s : state) : state :=
  mkState (eeprom s) (matchF s) (programMode s) (successRead s) v (readCard s)
    (masterCard s) (env s) (n_picc s) (n_dist s) (n_smoke s) (n_userOpen s) (n_wipeB s) (trace s).
Definition set_readCard (v : card) (s : state) : state :=
  mkState (eeprom s) (matchF s) (programMode s) (successRead s) (storedCard s) v
    (masterCard s) (env s) (n_picc s) (n_dist s) (n_smoke s) (n_userOpen s) (n_wipeB s) (trace s).
Definition set_n_picc (v : nat) (s : state) : state :=
  mkState (eeprom s) (matchF s) (programMode s) (successRead s) (storedCard s) (readCard s)
    (masterCard s) (env s) v (n_dist s) (n_smoke s) (n_userOpen s) (n_wipeB s) (trace s).
Definition set_n_dist (v : nat) (s : state) : state :=
  mkState (eeprom s) (matchF s) (programMode s) (successRead s) (storedCard s) (readCard s)
    (masterCard s) (env s) (n_picc s) v (n_smoke s) (n_userOpen s) (n_wipeB s) (trace s).
Definition set_n_smoke (v : nat) (s : state) : state :=
  mkState (eeprom s) (matchF s) (programMode s) (successRead s) (storedCard s) (readCard s)
    (masterCard s) (env s) (n_picc s) (n_dist s) v (n_userOpen s) (n_wipeB s) (trace s).
Definition set_n_userOpen (v : nat) (s : state) : state :=
  mkState (eeprom s) (matchF s) (programMode s) (successRead s) (storedCard s) (readCard s)
    (masterCard s) (env s) (n_picc s) (n_dist s) (n_smoke s) v (n_wipeB s) (trace s).
Definition set_n_wipeB (v : nat) (s : state) : state :=
  mkState (eeprom s) (matchF s) (programMode s) (successRead s) (storedCard s) (readCard s)
    (masterCard s) (env s) (n_picc s) (n_dist s) (n_smoke s) (n_userOpen s) v (trace s).
Definition emit (e : event) (s : state) : state :=
  mkState (eeprom s) (matchF s) (programMode s) (successRead s) (storedCard s) (readCard s)
    (masterCard s) (env s) (n_picc s) (n_dist s) (n_smoke s) (n_userOpen s) (n_wipeB s)
    (e :: trace s).

(** ** The monad

    A run either returns, reaches a [while (1);] (the sketch never leaves
    it), runs out of fuel inside one of the unbounded loops, or falls off
    the end of a value-returning function. *)
Inductive outcome (A : Type) :=
| Ret (a : A)
| Halt
| Timeout
| Undef.
Arguments Ret {A} a.
Arguments Halt {A}.
Arguments Timeout {A}.
Arguments Undef {A}.

Definition M (A : Type) : Type := state -> outcome A * state.

Definition ret {A} (a : A) : M A := fun s => (Ret a, s).

Definition bind {A B} (m : M A) (f : A -> M B) : M B :=
  fun s =>
    match m s with
    | (Ret a, s') => f a s'
    | (Halt, s') => (Halt, s')
    | (Timeout, s') => (Timeout, s')
    | (Undef, s') => (Undef, s')
    end.

Notation "x <- m ;; k" := (bind m (fun x => k))
  (at level 61, m at next level, right associativity).
Notation "m ;; k" := (bind m (fun _ => k))
  (at level 61, right associativity).

Definition get {A} (f : state -> A) : M A := fun s => (Ret (f s), s).
Definition modify (f : state -> state) : M unit := fun s => (Ret tt, f s).
(** [while (1);] *)
Definition halt {A} : M A := fun s => (Halt, s).
Definition timeout {A} : M A := fun s => (Timeout, s).
Definition undefined {A} : M A := fun s => (Undef, s).
Definition when (b : bool) (m : M unit) : M unit := if b then m else ret tt.

(** A counted loop [for (k = k0; ...; k++) body] that runs [n] times. *)
Fixpoint for_upto (n : nat) (k : Z) (body : Z -> M unit) : M unit :=
  match n with
  | O => ret tt
  | S n' => body k ;; for_upto n' (k + 1) body
  end.

(** [for (uint8_t k = 0; k < 4; k++) body] *)
Definition for4 (body : Z -> M unit) : M unit := for_upto 4 0 body.

(** Conversion to [uint8_t]. *)
Definition uint8 (z : Z) : Z := z mod 256.

(** ** Arduino primitives *)

(** [EEPROM.length()] on the ATmega328P of the Arduino Uno the README names. *)
Definition EEPROM_length : Z := 1024.

Fixpoint upd (n : nat) (v : Z) (l : list Z) : list Z :=
  match l, n with
  | [], _ => []
  | _ :: t, O => v :: t
  | h :: t, S n' => h :: upd n' v t
  end.

Definition peek (e : list Z) (idx : Z) : Z := nth (Z.to_nat idx) e 0.
Definition poke (e : list Z) (idx val : Z) : list Z := upd (Z.to_nat idx) val e.

Definition EEPROM_read (idx : Z) : M Z := get (fun s => peek (eeprom s) idx).
Definition EEPROM_write (idx val : Z) : M unit :=
  modify (fun s => set_eeprom (poke (eeprom s) idx val) s).

Definition digitalWrite (p : pin) (level : bool) : M unit := modify (emit (DigitalWrite p level)).
Definition delay (ms : Z) : M unit := modify (emit (Delay ms)).
Definition Serial_print (msg : string) : M unit := modify (emit (Serial msg)).
Definition Serial_printnum (n : Z) : M unit := modify (emit (SerialNum n)).

(** Only the two buttons are ever read. *)
Definition digitalRead (p : pin) : M bool :=
  match p with
  | userOpen => fun s => (Ret (userOpen_level (env s) (n_userOpen s)), set_n_userOpen (S (n_userOpen s)) s)
  | wipeB => fun s => (Ret (wipeB_level (env s) (n_wipeB s)), set_n_wipeB (S (n_wipeB s)) s)
  | _ => ret LOW
  end.

Definition ultrasonic_distanceRead : M Z :=
  fun s => (Ret (distance (env s) (n_dist s)), set_n_dist (S (n_dist s)) s).

Definition analogRead_smokePin : M Z :=
  fun s => (Ret (smoke (env s) (n_smoke s)), set_n_smoke (S (n_smoke s)) s).

Definition mfrc522_read : M (option card) :=
  fun s => (Ret (picc (env s) (n_picc s)), set_n_picc (S (n_picc s)) s).

(** ** The credential store (lines 355-457) *)

(** [readID]: [start] is a [uint8_t], [start + i] is computed in [int]. *)
Definition readID (number : Z) : M unit :=
  let start := uint8 (number * 4 + 2) in
  for4 (fun i =>
    v <- EEPROM_read (start + i) ;;
    modify (fun s => set_storedCard (card_set (storedCard s) i v) s)).

(** [checkTwo]: the global [match] is assigned only when [a[0] != 0]. *)
Definition checkTwo (a b : card) : M bool :=
  when (negb (card_get a 0 =? 0)) (modify (set_matchF true)) ;;
  for4 (fun k => when (negb (card_get a k =? card_get b k)) (modify (set_matchF false))) ;;
  m <- get matchF ;;
  if m then ret true else ret false.

(** The loop of [findID]: [i] is a [uint8_t], so [i++] wraps. *)
Fixpoint findID_loop (fuel : nat) (find : card) (count i : Z) : M bool :=
  match fuel with
  | O => timeout
  | S fuel' =>
      if i <=? count then
        readID i ;;
        sc <- get storedCard ;;
        r <- checkTwo find sc ;;
        if r then ret true else findID_loop fuel' find count (uint8 (i + 1))
      else ret false
  end.

Definition findID (fuel : nat) (find : card) : M bool :=
  count <- EEPROM_read 0 ;;
  findID_loop fuel find count 1.

(** The loop of [findIDSLOT]; leaving it without a match falls off the end
    of a function that returns [uint8_t]. *)
Fixpoint findIDSLOT_loop (fuel : nat) (find : card) (count i : Z) : M Z :=
  match fuel with
  | O => timeout
  | S fuel' =>
      if i <=? count then
        readID i ;;
        sc <- get storedCard ;;
        r <- checkTwo find sc ;;
        if r then ret i else findIDSLOT_loop fuel' find count (uint8 (i + 1))
      else undefined
  end.

Definition findIDSLOT (fuel : nat) (find : card) : M Z :=
  count <- EEPROM_read 0 ;;
  findIDSLOT_loop fuel find count 1.

Definition isMaster (test : card) : M bool :=
  mc <- get masterCard ;;
  r <- checkTwo test mc ;;
  if r then ret true else ret false.

Definition msg_failed : string := "Failed! There is something wrong with ID or bad EEPROM".
Definition msg_added : string := "Succesfully added ID record to EEPROM".
Definition msg_removed : string := "Succesfully removed ID record from EEPROM".

Definition writeID (fuel : nat) (a : card) : M unit :=
  found <- findID fuel a ;;
  if negb found then
    num <- EEPROM_read 0 ;;
    let start := uint8 (num * 4 + 6) in
    let num := uint8 (num + 1) in
    EEPROM_write 0 num ;;
    for4 (fun j => EEPROM_write (start + j) (card_get a j)) ;;
    Serial_print msg_added
  else
    Serial_print msg_failed.

(** [deleteID]: [start] and [looping] are [uint8_t]; the shifting loop runs
    [looping] times (its counter [j] is a [uint8_t] below [looping]) and
    leaves [j = looping] for the loop that zeroes the tail. *)
Definition deleteID (fuel : nat) (a : card) : M unit :=
  found <- findID fuel a ;;
  if negb found then
    Serial_print msg_failed
  else
    num <- EEPROM_read 0 ;;
    slot <- findIDSLOT fuel a ;;
    let start := uint8 (slot * 4 + 2) in
    let looping := uint8 ((num - slot) * 4) in
    let num := uint8 (num - 1) in
    EEPROM_write 0 num ;;
    for_upto (Z.to_nat looping) 0 (fun j =>
      v <- EEPROM_read (start + 4 + j) ;;
      EEPROM_write (start + j) v) ;;
    let j := looping in
    for4 (fun k => EEPROM_write (start + j + k) 0) ;;
    Serial_print msg_removed.

(** ** The door actuator and the safety monitor (lines 183-189, 277-312) *)

Definition funopenDoor : M unit :=
  delay 2000 ;;
  digitalWrite motHigh HIGH ;;
  delay 10000 ;;
  digitalWrite motHigh LOW ;;
  delay 2000.

(** The clear band of the distance reading: [value > 14 && value < 20]. *)
Definition clear (value : Z) : bool := (14 <? value) && (value <? 20).

(** [while (!safe) { ... }] of [closeDoor]; the local [safe] is the result
    of the band test, looked at after the [delay(500)]. *)
Fixpoint closeDoor_wait (fuel : nat) : M unit :=
  match fuel with
  | O => timeout
  | S fuel' =>
      value <- ultrasonic_distanceRead ;;
      Serial_printnum value ;;
      let safe := clear value in
      delay 500 ;;
      if safe then ret tt else closeDoor_wait fuel'
  end.

Definition closeDoor (fuel : nat) : M unit :=
  delay 2000 ;;
  closeDoor_wait fuel ;;
  digitalWrite motLow HIGH ;;
  delay 10200 ;;
  digitalWrite motLow LOW.

Definition checkClose (fuel : nat) : M unit :=
  value <- ultrasonic_distanceRead ;;
  when (clear value) (closeDoor fuel).

Definition msg_alarm : string := "Alarm triggered!! Press reset to reset door.".

(** [while (i != 0) { ...; i = i - 1; }] with [i] counting the samples left. *)
Fixpoint checkSmoke_loop (i : nat) : M unit :=
  match i with
  | O => ret tt
  | S i' =>
      j <- analogRead_smokePin ;;
      when (100 <? j) (Serial_print msg_alarm ;; funopenDoor ;; halt) ;;
      checkSmoke_loop i'
  end.

Definition checkSmoke : M unit := checkSmoke_loop 4.

(** ** Reading a card (lines 314-333) *)

Definition getID : M Z :=
  c <- mfrc522_read ;;
  match c with
  | None => ret 0
  | Some uid =>
      Serial_print "Scanned PICC's UID:" ;;
      for4 (fun i =>
        modify (fun s => set_readCard (card_set (readCard s) i (card_get uid i)) s) ;;
        b <- get (fun s => card_get (readCard s) i) ;;
        Serial_printnum b) ;;
      Serial_print EmptyString ;;
      ret 1
  end.

(** ** The main loop (lines 192-276) *)

Definition msg_rule : string := "-----------------------------".
Definition msg_scan : string := "Scan a PICC to ADD or REMOVE to EEPROM".

(** The [do { ... } while (!successRead);] of [loop]. *)
Fixpoint loop_poll (fuel : nat) : M unit :=
  match fuel with
  | O => timeout
  | S fuel' =>
      r <- getID ;;
      modify (set_successRead r) ;;
      checkSmoke ;;
      u <- digitalRead userOpen ;;
      when (Bool.eqb u LOW)
        (Serial_print "Button press open triggered." ;;
         funopenDoor ;;
         delay 10000 ;;
         closeDoor fuel') ;;
      w <- digitalRead wipeB ;;
      when (Bool.eqb w LOW)
        (Serial_print "Wipe Button Pressed" ;;
         Serial_print "Master Card will be Erased! in 10 seconds" ;;
         delay 10000 ;;
         w' <- digitalRead wipeB ;;
         when (Bool.eqb w' LOW)
           (EEPROM_write 1 0 ;;
            Serial_print "Restart device to re-program Master Card" ;;
            halt)) ;;
      sr <- get successRead ;;
      if sr =? 0 then loop_poll fuel' else ret tt
  end.

(** The [if (programMode) ... else ...] that follows the polling. *)
Definition loop_dispatch (fuel : nat) : M unit :=
  pm <- get programMode ;;
  rcard <- get readCard ;;
  if pm then
    m <- isMaster rcard ;;
    if m then
      Serial_print "Master Card Scanned" ;;
      Serial_print "Exiting Program Mode" ;;
      Serial_print msg_rule ;;
      modify (set_programMode false)
    else
      known <- findID fuel rcard ;;
      if known then
        Serial_print "I know this PICC, removing..." ;;
        deleteID fuel rcard ;;
        Serial_print msg_rule ;;
        Serial_print msg_scan
      else
        Serial_print "I do not know this PICC, adding..." ;;
        writeID fuel rcard ;;
        Serial_print msg_rule ;;
        Serial_print msg_scan
  else
    m <- isMaster rcard ;;
    if m then
      modify (set_programMode true) ;;
      Serial_print "Hello Master - Entered Program Mode" ;;
      count <- EEPROM_read 0 ;;
      Serial_print "I have " ;;
      Serial_printnum count ;;
      Serial_print " record(s) on EEPROM" ;;
      Serial_print EmptyString ;;
      Serial_print msg_scan ;;
      Serial_print "Scan Master Card again to Exit Program Mode" ;;
      Serial_print msg_rule
    else
      known <- findID fuel rcard ;;
      if known then
        Serial_print "Welcome, You shall pass" ;;
        digitalWrite rc HIGH ;;
        funopenDoor ;;
        digitalWrite rc LOW ;;
        delay 10000 ;;
        closeDoor fuel
      else
        Serial_print "You shall not pass".

Definition loop (fuel : nat) : M unit :=
  digitalWrite motHigh LOW ;;
  digitalWrite motLow LOW ;;
  digitalWrite rc LOW ;;
  checkClose fuel ;;
  loop_poll fuel ;;
  loop_dispatch fuel.

(** The Arduino core calls [loop] for ever. *)
Fixpoint run (fuel : nat) : M unit :=
  match fuel with
  | O => timeout
  | S fuel' => loop fuel' ;; run fuel'
  end.

(** ** Start-up *)

Definition set_masterCard (v : card) (s : state) : state :=
  mkState (eeprom s) (matchF s) (programMode s) (successRead s) (storedCard s) (readCard s)
    v (env s) (n_picc s) (n_dist s) (n_smoke s) (n_userOpen s) (n_wipeB s) (trace s).

Definition msg_halted : string := "SYSTEM HALTED: Check connections.".

(** [ShowReaderDetails]; [v] is the byte [PCD_ReadRegister(VersionReg)]
    returns. *)
Definition ShowReaderDetails (v : Z) : M unit :=
  Serial_print "MFRC522 Software Version: 0x" ;;
  Serial_printnum v ;;
  (if v =? 145 then Serial_print " = v1.0"
   else if v =? 146 then Serial_print " = v2.0"
   else Serial_print " (unknown),probably a chinese clone?") ;;
  Serial_print EmptyString ;;
  when ((v =? 0) || (v =? 255))
    (Serial_print "WARNING: Communication failure, is the MFRC522 properly connected?" ;;
     Serial_print msg_halted ;;
     halt).

(** The wipe loop of [setup]:
    [for (uint8_t x = 0; x < EEPROM.length(); x = x + 1)], the counter an
    8-bit one. *)
Fixpoint setup_wipe (fuel : nat) (x : Z) : M unit :=
  match fuel with
  | O => timeout
  | S fuel' =>
      if x <? EEPROM_length then
        v <- EEPROM_read x ;;
        when (negb (v =? 0)) (EEPROM_write x 0) ;;
        setup_wipe fuel' (uint8 (x + 1))
      else ret tt
  end.

(** [do { successRead = getID(); } while (!successRead);] of [setup]. *)
Fixpoint setup_scan (fuel : nat) : M unit :=
  match fuel with
  | O => timeout
  | S fuel' =>
      r <- getID ;;
      modify (set_successRead r) ;;
      if r =? 0 then setup_scan fuel' else ret tt
  end.

Definition msg_wiped : string := "EEPROM Successfully Wiped".
Definition msg_ready : string := "Waiting PICCs to be scanned".

(** [setup].  The pin modes and the initialisation of the serial port, the
    SPI bus and the reader have no effect on the state modelled here. *)
Definition setup (fuel : nat) (v : Z) : M unit :=
  Serial_print "Access Control Example v0.1" ;;
  ShowReaderDetails v ;;
  w <- digitalRead wipeB ;;
  when (Bool.eqb w LOW)
    (Serial_print "Wipe Button Pressed" ;;
     Serial_print "You have 15 seconds to Cancel" ;;
     Serial_print "This will be remove all records and cannot be undone" ;;
     delay 15000 ;;
     w' <- digitalRead wipeB ;;
     if Bool.eqb w' LOW then
       Serial_print "Starting Wiping EEPROM" ;;
       setup_wipe fuel 0 ;;
       Serial_print msg_wiped
     else Serial_print "Wiping Cancelled") ;;
  magic <- EEPROM_read 1 ;;
  when (negb (magic =? 143))
    (Serial_print "No Master Card Defined" ;;
     Serial_print "Scan A PICC to Define as Master Card" ;;
     setup_scan fuel ;;
     for4 (fun j => b <- get (fun s => card_get (readCard s) j) ;; EEPROM_write (2 + j) b) ;;
     EEPROM_write 1 143 ;;
     Serial_print "Master Card Defined") ;;
  Serial_print "-------------------" ;;
  Serial_print "Master Card's UID" ;;
  for4 (fun i =>
    b <- EEPROM_read (2 + i) ;;
    modify (fun s => set_masterCard (card_set (masterCard s) i b) s) ;;
    m <- get (fun s => card_get (masterCard s) i) ;;
    Serial_printnum m) ;;
  Serial_print EmptyString ;;
  Serial_print "-------------------" ;;
  Serial_print "Everything Ready" ;;
  Serial_print msg_ready.


(** * Specification-level definitions *)

Definition slot (e : list Z) (n : Z) : card :=
  let start := uint8 (n * 4 + 2) in
  mkCard (peek e (start + 0)) (peek e (start + 1)) (peek e (start + 2)) (peek e (start + 3)).

Definition checkTwo_result (a b : card) (m : bool) : bool :=
  (if card_get a 0 =? 0 then m else true) && card_eqb a b.

Definition visited (a : card) (i : Z) (st : state) : state :=
  set_matchF (checkTwo_result a (slot (eeprom st) i) (matchF st))
    (set_storedCard (slot (eeprom st) i) st).

(** Everything but the two scratch globals [match] and [storedCard]. *)
Definition same_world (s s' : state) : Prop :=
  eeprom s' = eeprom s /\ programMode s' = programMode s /\
  successRead s' = successRead s /\ readCard s' = readCard s /\
  masterCard s' = masterCard s /\ env s' = env s /\
  n_picc s' = n_picc s /\ n_dist s' = n_dist s /\ n_smoke s' = n_smoke s /\
  n_userOpen s' = n_userOpen s /\ n_wipeB s' = n_wipeB s /\ trace s' = trace s.

Definition written (e : list Z) (a : card) : list Z :=
  let num := peek e 0 in
  let start := uint8 (num * 4 + 6) in
  poke (poke (poke (poke (poke e 0 (uint8 (num + 1)))
    (start + 0) (c0 a)) (start + 1) (c1 a)) (start + 2) (c2 a)) (start + 3) (c3 a).

Fixpoint shifted (n : nat) (k start : Z) (e : list Z) : list Z :=
  match n with
  | O => e
  | S n' => shifted n' (k + 1) start (poke e (start + k) (peek e (start + 4 + k)))
  end.

Definition deleted (num : Z) (e : list Z) (slot : Z) : list Z :=
  let start := uint8 (slot * 4 + 2) in
  let looping := uint8 ((num - slot) * 4) in
  let e1 := shifted (Z.to_nat looping) 0 start (poke e 0 (uint8 (num - 1))) in
  poke (poke (poke (poke e1 (start + looping + 0) 0) (start + looping + 1) 0)
    (start + looping + 2) 0) (start + looping + 3) 0.

Definition count_of (st : state) : Z := peek (eeprom st) 0.

Definition preserves {X A} (proj : state -> X) (P : X -> X -> Prop) (m : M A) : Prop :=
  forall s, P (proj s) (proj (snd (m s))).

(** Events that cannot energize a motor output. *)
Definition quiet (e : event) : bool :=
  match e with
  | DigitalWrite motHigh true | DigitalWrite motLow true => false
  | _ => true
  end.

Definition open_events : list event :=
  [Delay 2000; DigitalWrite motHigh LOW; Delay 10000; DigitalWrite motHigh HIGH; Delay 2000].

Definition close_events : list event :=
  [DigitalWrite motLow LOW; Delay 10200; DigitalWrite motLow HIGH].

Definition pin_eqb (p q : pin) : bool :=
  match p, q with
  | wipeB, wipeB | userOpen, userOpen | rc, rc | motHigh, motHigh | motLow, motLow => true
  | _, _ => false
  end.

(** The level an output pin holds after the events of [t] (newest first);
    outputs are LOW after reset. *)
Fixpoint level (p : pin) (t : list event) : bool :=
  match t with
  | [] => LOW
  | DigitalWrite q v :: t' => if pin_eqb p q then v else level p t'
  | _ :: t' => level p t'
  end.

Definition interlocked (t : list event) : bool := negb (level motHigh t && level motLow t).

(** The interlock held after every event of the trace. *)
Fixpoint always_interlocked (t : list event) : bool :=
  interlocked t && match t with [] => true | _ :: t' => always_interlocked t' end.

Definition idle (t : list event) : bool := negb (level motHigh t) && negb (level motLow t).

Definition safe (t : list event) : Prop := idle t = true /\ always_interlocked t = true.

Definition keeps_safe (t t' : list event) : Prop := safe t -> safe t'.

Definition extends (t t' : list event) : Prop := exists d, t' = d ++ t.

Definition clear_events : list event :=
  [DigitalWrite rc LOW; DigitalWrite motLow LOW; DigitalWrite motHigh LOW].

(** The state after [n] samples that were all outside the clear band. *)
Fixpoint waiting (n : nat) (st : state) : state :=
  match n with
  | O => st
  | S n' =>
      waiting n' (emit (Delay 500) (emit (SerialNum (distance (env st) (n_dist st)))
                   (set_n_dist (S (n_dist st)) st)))
  end.

(** The next [n] readings of the distance sensor. *)
Definition samples (st : state) (n : nat) : list Z :=
  map (fun i => distance (env st) (i + n_dist st)%nat) (seq 0 n).

(** What the clearance wait prints and waits for the readings [vs]. *)
Definition wait_trace (vs : list Z) : list event :=
  flat_map (fun v => [Delay 500; SerialNum v]) (rev vs).

(** The state in which [checkSmoke] stops when its [k+1]-th sample is the
    first above the threshold. *)
Definition alarmed (k : nat) (st : state) : state :=
  emit (Delay 2000) (emit (DigitalWrite motHigh LOW) (emit (Delay 10000)
    (emit (DigitalWrite motHigh HIGH) (emit (Delay 2000) (emit (Serial msg_alarm)
      (set_n_smoke (S k + n_smoke st) st)))))).

Definition eeprom_ok (st : state) : Prop := Z.of_nat (List.length (eeprom st)) = EEPROM_length.

(** The EEPROM after [setup] has defined [master]: no records, magic number 143. *)
Definition provisioned (master : card) : list Z :=
  [0; 143; c0 master; c1 master; c2 master; c3 master] ++ repeat 0 1018.

(** Inputs: the cards presented in turn, the distance readings, a gas level
    below the threshold and both buttons released. *)
Definition presenting (cards : list card) (dist : nat -> Z) : inputs :=
  mkInputs (fun n => nth n (map Some cards) None) dist (fun _ => 0)
    (fun _ => HIGH) (fun _ => HIGH).

(** The globals as [setup] leaves them: [masterCard] is read back from bytes 2-5. *)
Definition power_on (e : list Z) (i : inputs) : state :=
  mkState e false false 0 (mkCard 0 0 0 0) (mkCard 0 0 0 0) (slot e 0) i 0 0 0 0 0 [].

Definition user (n : Z) : card := mkCard n 1 1 1.

(** [n] cards enrolled one after the other, as Program mode does. *)
Fixpoint enrolled (n : nat) (st : state) : state :=
  match n with
  | O => st
  | S n' => let st' := enrolled n' st in snd (writeID 300 (user (Z.of_nat n)) st')
  end.

Definition card_A : card := mkCard 1 2 3 4.

Definition card_Z : card := mkCard 0 1 2 3.

Definition card_M : card := mkCard 77 1 2 3.

Definition hello_events (count : Z) : list event :=
  [Serial msg_rule; Serial "Scan Master Card again to Exit Program Mode"; Serial msg_scan;
   Serial EmptyString; Serial " record(s) on EEPROM"; SerialNum count; Serial "I have ";
   Serial "Hello Master - Entered Program Mode"].

(** The store [e'] is the store [e] with slot [s] closed up. *)
Definition compacted (e e' : list Z) (s : Z) : Prop :=
  peek e' 0 = peek e 0 - 1 /\
  (forall i, 1 <= i < s -> slot e' i = slot e i) /\
  (forall i, s <= i < peek e 0 -> slot e' i = slot e (i + 1)) /\
  slot e' (peek e 0) = mkCard 0 0 0 0.

(** Only the master-defined flag (byte 1) may differ. *)
Definition flag_only (e e' : list Z) : Prop :=
  List.length e' = List.length e /\ forall i, 0 <= i -> i <> 1 -> peek e' i = peek e i.

(** *** Concrete stores *)

(** An empty store with master card 77.1.2.3, nobody at the reader. *)
Definition st_empty : state := power_on (provisioned card_M) (presenting [] (fun _ => 50)).

(** Three cards enrolled. *)
Definition st_three : state := enrolled 3 st_empty.

(** Master card 0.1.2.3, the card 1.2.3.4 in the store; the known card is
    presented first, then the master card.  The second distance reading is
    inside the clear band. *)
Definition st_zero_master : state :=
  power_on (written (provisioned card_Z) card_A)
    (presenting [card_A; card_Z] (fun n => if Nat.eqb n 1 then 17 else 50)).

(** Somebody stands in the doorway for the first two readings. *)
Definition st_doorway : state :=
  power_on (provisioned card_M) (presenting [] (fun n => if Nat.ltb n 2 then 50 else 17)).

(** The third gas sample is above the threshold. *)
Definition st_smoky : state :=
  power_on (provisioned card_M)
    (mkInputs (fun _ => None) (fun _ => 50) (fun n => if Nat.eqb n 2 then 300 else 10)
       (fun _ => HIGH) (fun _ => HIGH)).

(** *** Events, stores and inputs of the further properties *)

(** The event is a write to pin [p]. *)
Definition writes_pin (p : pin) (e : event) : bool :=
  match e with
  | DigitalWrite q _ => pin_eqb p q
  | _ => false
  end.

(** Pin [p] holds the same level after [t'] as after [t]. *)
Definition same_level (p : pin) (t t' : list event) : Prop := level p t' = level p t.

(** What [getID] prints for the card [uid] (newest first). *)
Definition uid_events (uid : card) : list event :=
  [Serial EmptyString; SerialNum (c3 uid); SerialNum (c2 uid); SerialNum (c1 uid);
   SerialNum (c0 uid); Serial "Scanned PICC's UID:"].

(** What the dispatch prints when it leaves Program mode (newest first). *)
Definition bye_events : list event :=
  [Serial msg_rule; Serial "Exiting Program Mode"; Serial "Master Card Scanned"].

(** What the dispatch does to the outputs and prints when it grants access,
    up to the start of the close cycle (newest first). *)
Definition grant_events : list event :=
  [Delay 10000; DigitalWrite rc LOW] ++ open_events ++
  [DigitalWrite rc HIGH; Serial "Welcome, You shall pass"].

(** The card [a] is in none of the record slots. *)
Definition absent (a : card) (st : state) : Prop :=
  forall j, 1 <= j <= count_of st -> slot (eeprom st) j <> a.

(** Slot [j] is the first record slot that holds the card [a]. *)
Definition first_at (a : card) (j : Z) (st : state) : Prop :=
  1 <= j <= count_of st /\ slot (eeprom st) j = a /\
  forall k, 1 <= k < j -> slot (eeprom st) k <> a.

(** The polling body of [loop] after the reader poll and the safety poll:
    the two buttons and the loop test. *)
Definition poll_buttons (fuel' : nat) : M unit :=
  u <- digitalRead userOpen ;;
  when (Bool.eqb u LOW)
    (Serial_print "Button press open triggered." ;;
     funopenDoor ;;
     delay 10000 ;;
     closeDoor fuel') ;;
  w <- digitalRead wipeB ;;
  when (Bool.eqb w LOW)
    (Serial_print "Wipe Button Pressed" ;;
     Serial_print "Master Card will be Erased! in 10 seconds" ;;
     delay 10000 ;;
     w' <- digitalRead wipeB ;;
     when (Bool.eqb w' LOW)
       (EEPROM_write 1 0 ;;
        Serial_print "Restart device to re-program Master Card" ;;
        halt)) ;;
  sr <- get successRead ;;
  if sr =? 0 then loop_poll fuel' else ret tt.

(** The four gas samples the next safety poll takes are at most 100. *)
Definition air_clear (st : state) : Prop :=
  forall k, (k < 4)%nat -> smoke (env st) (k + n_smoke st)%nat <= 100.

(** What a reader poll leaves behind: the answer, [readCard] and the lines
    printed. *)
Definition polled_successRead (st : state) : Z :=
  match picc (env st) (n_picc st) with Some _ => 1 | None => 0 end.
Definition polled_readCard (st : state) : card :=
  match picc (env st) (n_picc st) with Some uid => uid | None => readCard st end.
Definition polled_trace (st : state) : list event :=
  match picc (env st) (n_picc st) with
  | Some uid => uid_events uid ++ trace st
  | None => trace st
  end.

(** What the runtime wipe prints and waits for, when confirmed (newest first). *)
Definition wipe_events : list event :=
  [Serial "Restart device to re-program Master Card"; Delay 10000;
   Serial "Master Card will be Erased! in 10 seconds"; Serial "Wipe Button Pressed"].

(** The same when the button is released in time. *)
Definition wipe_cancelled_events : list event :=
  [Delay 10000; Serial "Master Card will be Erased! in 10 seconds";
   Serial "Wipe Button Pressed"].

(** The state a reader poll leaves behind. *)
Definition polled (st : state) : state :=
  match picc (env st) (n_picc st) with
  | Some uid =>
      emit (Serial EmptyString) (emit (SerialNum (c3 uid)) (emit (SerialNum (c2 uid))
        (emit (SerialNum (c1 uid)) (emit (SerialNum (c0 uid))
          (emit (Serial "Scanned PICC's UID:")
            (set_readCard uid (set_n_picc (S (n_picc st)) st)))))))
  | None => set_n_picc (S (n_picc st)) st
  end.

(** The first distance reading is inside the clear band, the next two are
    not, the fourth is. *)
Definition st_closing : state :=
  power_on (provisioned card_M)
    (presenting [] (fun n => if Nat.eqb n 0 then 17 else if Nat.ltb n 3 then 50 else 17)).

(** The EEPROM after [n] steps of the wipe loop of [setup] from address [x]. *)
Fixpoint wiped (n : nat) (x : Z) (e : list Z) : list Z :=
  match n with
  | O => e
  | S n' => wiped n' (uint8 (x + 1)) (if peek e x =? 0 then e else poke e x 0)
  end.

(** How many steps the 8-bit counter needs from [x] to [i]. *)
Definition ahead (x i : Z) : Z := if x <=? i then i - x else i - x + 256.

(** The version byte of a reader that answers. *)
Definition reader_alive (v : Z) : Prop := v <> 0 /\ v <> 255.

(** The globals after reset, before [setup]. *)
Definition reset (e : list Z) (i : inputs) : state :=
  mkState e false false 0 (mkCard 0 0 0 0) (mkCard 0 0 0 0) (mkCard 0 0 0 0) i 0 0 0 0 0 [].

(** The wipe button is held down at power-up. *)
Definition st_wiping : state :=
  reset (eeprom st_three)
    (mkInputs (fun _ => None) (fun _ => 50) (fun _ => 10) (fun _ => HIGH) (fun _ => LOW)).


(** The two parts of [setup] after the reader check: the power-on wipe and
    the master card. *)
Definition setup_wipe_check (fuel : nat) : M unit :=
  w <- digitalRead wipeB ;;
  when (Bool.eqb w LOW)
    (Serial_print "Wipe Button Pressed" ;;
     Serial_print "You have 15 seconds to Cancel" ;;
     Serial_print "This will be remove all records and cannot be undone" ;;
     delay 15000 ;;
     w' <- digitalRead wipeB ;;
     if Bool.eqb w' LOW then
       Serial_print "Starting Wiping EEPROM" ;;
       setup_wipe fuel 0 ;;
       Serial_print msg_wiped
     else Serial_print "Wiping Cancelled").

Definition setup_define_master (fuel : nat) : M unit :=
  magic <- EEPROM_read 1 ;;
  when (negb (magic =? 143))
    (Serial_print "No Master Card Defined" ;;
     Serial_print "Scan A PICC to Define as Master Card" ;;
     setup_scan fuel ;;
     for4 (fun j => b <- get (fun s => card_get (readCard s) j) ;; EEPROM_write (2 + j) b) ;;
     EEPROM_write 1 143 ;;
     Serial_print "Master Card Defined").

Definition setup_load_master : M unit :=
  Serial_print "-------------------" ;;
  Serial_print "Master Card's UID" ;;
  for4 (fun i =>
    b <- EEPROM_read (2 + i) ;;
    modify (fun s => set_masterCard (card_set (masterCard s) i b) s) ;;
    m <- get (fun s => card_get (masterCard s) i) ;;
    Serial_printnum m) ;;
  Serial_print EmptyString ;;
  Serial_print "-------------------" ;;
  Serial_print "Everything Ready" ;;
  Serial_print msg_ready.

(** What [setup] prints when it loads the master card [m] (newest first). *)
Definition ready_events (m : card) : list event :=
  [Serial msg_ready; Serial "Everything Ready"; Serial "-------------------";
   Serial EmptyString; SerialNum (c3 m); SerialNum (c2 m); SerialNum (c1 m);
   SerialNum (c0 m); Serial "Master Card's UID"; Serial "-------------------"].


(** * Properties *)

Lemma bind_Ret {A B} (m : M A) (f : A -> M B) s a s' :
  m s = (Ret a, s') -> bind m f s = f a s'.
Proof. intros H. unfold bind. now rewrite H. Qed.

Lemma length_upd n v l : List.length (upd n v l) = List.length l.
Proof. revert n. induction l as [|h t IH]; intros [|n]; simpl; auto. Qed.

Lemma nth_upd_same n v l : (n < List.length l)%nat -> nth n (upd n v l) 0 = v.
Proof. revert n. induction l as [|h t IH]; intros [|n]; simpl; intros; try lia; auto. apply IH. lia. Qed.

Lemma nth_upd_other n m v l : n <> m -> nth m (upd n v l) 0 = nth m l 0.
Proof.
  revert n m. induction l as [|h t IH]; intros [|n] [|m]; simpl; intros; try congruence; auto.
Qed.

Lemma length_poke e i v : List.length (poke e i v) = List.length e.
Proof. apply length_upd. Qed.

Lemma peek_poke_same e i v :
  0 <= i < Z.of_nat (List.length e) -> peek (poke e i v) i = v.
Proof. intros. unfold peek, poke. apply nth_upd_same. lia. Qed.

Lemma peek_poke_other e i j v :
  0 <= i -> 0 <= j -> i <> j -> peek (poke e i v) j = peek e j.
Proof. intros. unfold peek, poke. apply nth_upd_other. lia. Qed.

Lemma readID_eq n st :
  readID n st = (Ret tt, set_storedCard (slot (eeprom st) n) st).
Proof. reflexivity. Qed.

Lemma checkTwo_eq a b st :
  checkTwo a b st =
  (Ret (checkTwo_result a b (matchF st)), set_matchF (checkTwo_result a b (matchF st)) st).
Proof.
  destruct st as [e m pm sr sc rc' mc en np nd ns nu nw tr], a as [a0 a1 a2 a3], b as [b0 b1 b2 b3].
  unfold checkTwo, checkTwo_result, card_eqb, for4, for_upto, bind, when, modify, get, ret, card_get; cbn.
  destruct (a0 =? 0), (a0 =? b0), (a1 =? b1), (a2 =? b2), (a3 =? b3), m; reflexivity.
Qed.

Lemma visit_eq {B} a i (k : bool -> M B) st :
  (readID i ;; sc <- get storedCard ;; r <- checkTwo a sc ;; k r) st =
  k (checkTwo_result a (slot (eeprom st) i) (matchF st)) (visited a i st).
Proof.
  rewrite (bind_Ret _ _ _ _ _ (readID_eq i st)).
  unfold bind at 1, get at 1.
  rewrite (bind_Ret _ _ _ _ _ (checkTwo_eq a _ _)). reflexivity.
Qed.

Lemma findID_loop_S f a count i st :
  findID_loop (S f) a count i st =
  if i <=? count then
    if checkTwo_result a (slot (eeprom st) i) (matchF st)
    then (Ret true, visited a i st)
    else findID_loop f a count (uint8 (i + 1)) (visited a i st)
  else (Ret false, st).
Proof.
  cbn [findID_loop]. destruct (i <=? count); [|reflexivity].
  rewrite visit_eq. destruct (checkTwo_result _ _ _); reflexivity.
Qed.

Lemma findIDSLOT_loop_S f a count i st :
  findIDSLOT_loop (S f) a count i st =
  if i <=? count then
    if checkTwo_result a (slot (eeprom st) i) (matchF st)
    then (Ret i, visited a i st)
    else findIDSLOT_loop f a count (uint8 (i + 1)) (visited a i st)
  else (Undef, st).
Proof.
  cbn [findIDSLOT_loop]. destruct (i <=? count); [|reflexivity].
  rewrite visit_eq. destruct (checkTwo_result _ _ _); reflexivity.
Qed.

Lemma same_world_refl s : same_world s s.
Proof. repeat split. Qed.

Lemma same_world_trans s1 s2 s3 : same_world s1 s2 -> same_world s2 s3 -> same_world s1 s3.
Proof. unfold same_world. intuition congruence. Qed.

Lemma same_world_visited a i s : same_world s (visited a i s).
Proof. repeat split. Qed.

Lemma findID_loop_world fuel a count : forall i st,
  same_world st (snd (findID_loop fuel a count i st)).
Proof.
  induction fuel as [|f IH]; intros i st; [apply same_world_refl|].
  rewrite findID_loop_S.
  destruct (i <=? count); [|apply same_world_refl].
  destruct (checkTwo_result _ _ _); [apply same_world_visited|].
  eapply same_world_trans; [apply (same_world_visited a i)|apply IH].
Qed.

Lemma findIDSLOT_loop_world fuel a count : forall i st,
  same_world st (snd (findIDSLOT_loop fuel a count i st)).
Proof.
  induction fuel as [|f IH]; intros i st; [apply same_world_refl|].
  rewrite findIDSLOT_loop_S.
  destruct (i <=? count); [|apply same_world_refl].
  destruct (checkTwo_result _ _ _); [apply same_world_visited|].
  eapply same_world_trans; [apply (same_world_visited a i)|apply IH].
Qed.

Lemma uint8_small z : 0 <= z < 256 -> uint8 z = z.
Proof. intros. unfold uint8. apply Z.mod_small. lia. Qed.

Lemma checkTwo_result_true a b m :
  checkTwo_result a b m = true ->
  card_eqb a b = true /\ (card_get a 0 = 0 -> m = true).
Proof.
  unfold checkTwo_result. intros H. apply andb_true_iff in H as [H1 H2]. split; [exact H2|].
  intros H0. apply Z.eqb_eq in H0. now rewrite H0 in H1.
Qed.

Lemma checkTwo_result_false a b m :
  checkTwo_result a b m = false ->
  card_eqb a b = false \/ (card_get a 0 = 0 /\ m = false).
Proof.
  unfold checkTwo_result. intros H. apply andb_false_iff in H as [H|H]; [|now left].
  right. destruct (card_get a 0 =? 0) eqn:E; [|discriminate].
  apply Z.eqb_eq in E. now split.
Qed.

(** What a hit of the slot search says about the store. *)
Lemma findIDSLOT_loop_hit fuel a count : forall i st s st',
  count <= 254 -> 0 <= i ->
  findIDSLOT_loop fuel a count i st = (Ret s, st') ->
  i <= s <= count /\
  card_eqb a (slot (eeprom st) s) = true /\
  (forall j, i <= j < s -> card_eqb a (slot (eeprom st) j) = false) /\
  matchF st' = true /\
  (card_get a 0 = 0 -> matchF st = true /\ s = i) /\
  s - i < Z.of_nat fuel.
Proof.
  induction fuel as [|f IH]; intros i st s st' Hc Hi H; [discriminate|].
  rewrite findIDSLOT_loop_S in H.
  destruct (i <=? count) eqn:Ei; [|discriminate]. apply Z.leb_le in Ei.
  destruct (checkTwo_result a (slot (eeprom st) i) (matchF st)) eqn:Er.
  - inversion H; subst s st'. apply checkTwo_result_true in Er as [E1 E2].
    repeat split; try lia; auto.
    unfold visited; cbn. unfold checkTwo_result.
    destruct (card_get a 0 =? 0) eqn:E0.
    + apply Z.eqb_eq in E0. rewrite (E2 E0). now rewrite E1.
    + now rewrite E1.
  - rewrite uint8_small in H by lia.
    apply IH in H; try lia.
    destruct H as (H1 & H2 & H3 & H4 & H5 & H6).
    change (eeprom (visited a i st)) with (eeprom st) in *.
    assert (Hne : card_get a 0 <> 0).
    { intros H0. destruct (H5 H0) as [Hm _]. cbn in Hm. congruence. }
    repeat split; try lia; auto.
    all: try (intros H0; contradiction).
    intros j Hj. destruct (Z.eq_dec j i) as [->|Hji]; [|apply H3; lia].
    apply checkTwo_result_false in Er as [Er|[Er _]]; [exact Er|contradiction].
Qed.

Lemma findID_of_findIDSLOT fuel a count : forall i st s st',
  findIDSLOT_loop fuel a count i st = (Ret s, st') ->
  findID_loop fuel a count i st = (Ret true, st').
Proof.
  induction fuel as [|f IH]; intros i st s st' H; [discriminate|].
  rewrite findIDSLOT_loop_S in H. rewrite findID_loop_S.
  destruct (i <=? count); [|discriminate].
  destruct (checkTwo_result _ _ _).
  - now inversion H.
  - eapply IH; eauto.
Qed.

(** The first slot that holds [a] is found, provided the comparator is armed. *)
Lemma findIDSLOT_loop_complete fuel a count : forall i st s,
  count <= 254 -> 0 <= i <= s -> s <= count ->
  card_eqb a (slot (eeprom st) s) = true ->
  (forall j, i <= j < s -> card_eqb a (slot (eeprom st) j) = false) ->
  (card_get a 0 <> 0 \/ (matchF st = true /\ s = i)) ->
  s - i < Z.of_nat fuel ->
  exists st', findIDSLOT_loop fuel a count i st = (Ret s, st') /\
              same_world st st' /\ matchF st' = true.
Proof.
  induction fuel as [|f IH]; intros i st s Hc Hi Hs He Hn Ha Hf; [lia|].
  rewrite findIDSLOT_loop_S.
  replace (i <=? count) with true by (symmetry; apply Z.leb_le; lia).
  destruct (Z.eq_dec s i) as [->|Hsi].
  - assert (Er : checkTwo_result a (slot (eeprom st) i) (matchF st) = true).
    { unfold checkTwo_result. rewrite He.
      destruct Ha as [Ha|[Ha _]].
      - apply Z.eqb_neq in Ha. now rewrite Ha.
      - rewrite Ha. now destruct (card_get a 0 =? 0). }
    rewrite Er. eexists; split; [reflexivity|]. split; [apply same_world_visited|].
    cbn. exact Er.
  - assert (Ha' : card_get a 0 <> 0) by (destruct Ha as [Ha|[_ Ha]]; [exact Ha|lia]).
    assert (Er : checkTwo_result a (slot (eeprom st) i) (matchF st) = false).
    { unfold checkTwo_result. rewrite (Hn i) by lia. apply andb_false_r. }
    rewrite Er. rewrite uint8_small by lia.
    destruct (IH (i + 1) (visited a i st) s) as (st' & E1 & E2 & E3);
      try lia; auto; [intros j Hj; apply Hn; lia|].
    exists st'. split; [exact E1|]. split; [|exact E3].
    eapply same_world_trans; [apply (same_world_visited a i)|exact E2].
Qed.

(** A miss with a non-zero first byte means no slot holds [a]. *)
Lemma findID_loop_miss fuel a count : forall i st st',
  count <= 254 -> 0 <= i ->
  findID_loop fuel a count i st = (Ret false, st') ->
  card_get a 0 <> 0 ->
  forall j, i <= j <= count -> card_eqb a (slot (eeprom st) j) = false.
Proof.
  induction fuel as [|f IH]; intros i st st' Hc Hi H Ha j Hj; [discriminate|].
  rewrite findID_loop_S in H.
  destruct (i <=? count) eqn:Ei; [apply Z.leb_le in Ei|apply Z.leb_gt in Ei; lia].
  destruct (checkTwo_result a (slot (eeprom st) i) (matchF st)) eqn:Er; [discriminate|].
  rewrite uint8_small in H by lia.
  destruct (Z.eq_dec j i) as [->|Hji].
  - apply checkTwo_result_false in Er as [Er|[Er _]]; [exact Er|contradiction].
  - apply (IH (i + 1) (visited a i st) st'); auto; lia.
Qed.

(** With a zero first byte and [match] clear, nothing is ever found. *)
Lemma findID_loop_zero fuel a count : forall i st,
  card_get a 0 = 0 -> matchF st = false ->
  fst (findID_loop fuel a count i st) <> Ret true /\
  matchF (snd (findID_loop fuel a count i st)) = false.
Proof.
  induction fuel as [|f IH]; intros i st Ha Hm; [split; [discriminate|exact Hm]|].
  rewrite findID_loop_S.
  assert (Er : checkTwo_result a (slot (eeprom st) i) (matchF st) = false).
  { unfold checkTwo_result. apply Z.eqb_eq in Ha. now rewrite Ha, Hm. }
  rewrite Er. destruct (i <=? count); [|split; [discriminate|exact Hm]].
  apply IH; auto.
Qed.

(** The search returns when it is given one unit of fuel per slot and one more. *)
Lemma findID_loop_returns fuel a count : forall i st,
  count <= 254 -> 0 <= i <= count + 1 -> count - i + 1 < Z.of_nat fuel ->
  exists r st', findID_loop fuel a count i st = (Ret r, st').
Proof.
  induction fuel as [|f IH]; intros i st Hc Hi Hf; [lia|].
  rewrite findID_loop_S.
  destruct (i <=? count) eqn:Ei; [apply Z.leb_le in Ei|eauto].
  destruct (checkTwo_result _ _ _); [eauto|].
  rewrite uint8_small by lia. apply IH; lia.
Qed.

(** *** The writes of [writeID] and [deleteID] as functions of the EEPROM *)

Lemma writeID_miss fuel a st st1 :
  findID fuel a st = (Ret false, st1) ->
  writeID fuel a st = (Ret tt, emit (Serial msg_added) (set_eeprom (written (eeprom st1) a) st1)).
Proof.
  intros H. unfold writeID. rewrite (bind_Ret _ _ _ _ _ H). reflexivity.
Qed.

Lemma writeID_hit fuel a st st1 :
  findID fuel a st = (Ret true, st1) ->
  writeID fuel a st = (Ret tt, emit (Serial msg_failed) st1).
Proof.
  intros H. unfold writeID. rewrite (bind_Ret _ _ _ _ _ H). reflexivity.
Qed.

Lemma deleteID_miss fuel a st st1 :
  findID fuel a st = (Ret false, st1) ->
  deleteID fuel a st = (Ret tt, emit (Serial msg_failed) st1).
Proof.
  intros H. unfold deleteID. rewrite (bind_Ret _ _ _ _ _ H). reflexivity.
Qed.

Lemma shift_loop_eq start n : forall k st,
  for_upto n k (fun j => v <- EEPROM_read (start + 4 + j) ;; EEPROM_write (start + j) v) st =
  (Ret tt, set_eeprom (shifted n k start (eeprom st)) st).
Proof.
  induction n as [|n IH]; intros k st.
  - now destruct st.
  - cbn [for_upto shifted]. unfold bind at 1.
    change ((v <- EEPROM_read (start + 4 + k) ;; EEPROM_write (start + k) v) st)
      with (Ret tt, set_eeprom (poke (eeprom st) (start + k) (peek (eeprom st) (start + 4 + k))) st).
    cbv beta iota. rewrite IH. reflexivity.
Qed.

Lemma deleteID_hit fuel a st st1 s st2 :
  findID fuel a st = (Ret true, st1) ->
  findIDSLOT fuel a st1 = (Ret s, st2) ->
  deleteID fuel a st =
  (Ret tt, emit (Serial msg_removed)
             (set_eeprom (deleted (peek (eeprom st1) 0) (eeprom st2) s) st2)).
Proof.
  intros H1 H2. unfold deleteID. rewrite (bind_Ret _ _ _ _ _ H1). cbn [negb].
  unfold bind at 1, EEPROM_read at 1, get at 1.
  rewrite (bind_Ret _ _ _ _ _ H2).
  unfold bind at 1, EEPROM_write at 1, modify at 1.
  unfold bind at 1. rewrite shift_loop_eq. reflexivity.
Qed.

Ltac bool_cases :=
  repeat match goal with
         | |- context [?x =? ?y] => destruct (Z.eqb_spec x y)
         | |- context [?x <=? ?y] => destruct (Z.leb_spec x y)
         | |- context [?x <? ?y] => destruct (Z.ltb_spec x y)
         end;
  cbn [andb negb]; try lia; try reflexivity.

Lemma peek_poke e i j v :
  0 <= i < Z.of_nat (List.length e) -> 0 <= j ->
  peek (poke e i v) j = if j =? i then v else peek e j.
Proof.
  intros Hi Hj. destruct (Z.eqb_spec j i) as [->|E].
  - now apply peek_poke_same.
  - apply peek_poke_other; lia.
Qed.

Lemma length_shifted n : forall k start e,
  List.length (shifted n k start e) = List.length e.
Proof.
  induction n as [|n IH]; intros k start e; cbn [shifted]; [reflexivity|].
  now rewrite IH, length_poke.
Qed.

Lemma peek_shifted n : forall k start e addr,
  0 <= start + k -> start + k + Z.of_nat n <= Z.of_nat (List.length e) -> 0 <= addr ->
  peek (shifted n k start e) addr =
  if (start + k <=? addr) && (addr <? start + k + Z.of_nat n)
  then peek e (addr + 4) else peek e addr.
Proof.
  induction n as [|n IH]; intros k start e addr H0 Hl Ha; cbn [shifted].
  - bool_cases.
  - rewrite IH by (rewrite ?length_poke; lia).
    rewrite !peek_poke by lia. bool_cases. f_equal; lia.
Qed.

(** The bytes of the EEPROM after a removal at slot [s] of [num] records. *)
Lemma peek_deleted num e s addr :
  Z.of_nat (List.length e) = EEPROM_length ->
  1 <= s <= num -> num <= 63 -> 0 <= addr ->
  peek (deleted num e s) addr =
  if addr =? 0 then num - 1
  else if (4 * s + 2 <=? addr) && (addr <? 4 * num + 2) then peek e (addr + 4)
  else if (4 * num + 2 <=? addr) && (addr <? 4 * num + 6) then 0
  else peek e addr.
Proof.
  unfold EEPROM_length. intros Hl Hs Hn Ha. unfold deleted.
  rewrite !uint8_small by lia.
  replace (s * 4 + 2 + (num - s) * 4) with (4 * num + 2) by lia.
  rewrite !peek_poke by (rewrite ?length_poke, ?length_shifted, ?length_poke; lia).
  rewrite peek_shifted by (rewrite ?length_poke; lia).
  rewrite !peek_poke by lia.
  rewrite Z2Nat.id by lia.
  bool_cases.
Qed.

(** The bytes of the EEPROM after an append to a store of at most 62 records. *)
Lemma peek_written e a addr :
  Z.of_nat (List.length e) = EEPROM_length ->
  0 <= peek e 0 <= 62 -> 0 <= addr ->
  peek (written e a) addr =
  if addr =? 0 then peek e 0 + 1
  else if (4 * peek e 0 + 6 <=? addr) && (addr <? 4 * peek e 0 + 10)
       then card_get a (addr - (4 * peek e 0 + 6))
       else peek e addr.
Proof.
  unfold EEPROM_length. intros Hl Hn Ha. unfold written.
  rewrite !uint8_small by lia.
  rewrite !peek_poke by (rewrite ?length_poke; lia).
  unfold card_get. bool_cases.
Qed.

Lemma slot_deleted_below num e s i :
  Z.of_nat (List.length e) = EEPROM_length ->
  1 <= s <= num -> num <= 63 -> 1 <= i < s ->
  slot (deleted num e s) i = slot e i.
Proof.
  intros Hl Hs Hn Hi. unfold slot. rewrite !uint8_small by lia.
  rewrite !peek_deleted by lia. f_equal; bool_cases.
Qed.

Lemma slot_deleted_above num e s i :
  Z.of_nat (List.length e) = EEPROM_length ->
  1 <= s <= num -> num <= 63 -> s <= i < num ->
  slot (deleted num e s) i = slot e (i + 1).
Proof.
  intros Hl Hs Hn Hi. unfold slot. rewrite !uint8_small by lia.
  rewrite !peek_deleted by lia. f_equal; bool_cases; f_equal; lia.
Qed.

Lemma slot_deleted_tail num e s :
  Z.of_nat (List.length e) = EEPROM_length ->
  1 <= s <= num -> num <= 63 ->
  slot (deleted num e s) num = mkCard 0 0 0 0.
Proof.
  intros Hl Hs Hn. unfold slot. rewrite !uint8_small by lia.
  rewrite !peek_deleted by lia. f_equal; bool_cases.
Qed.

(** *** Frames: a relation on one observable that every step respects *)

Section Frame.
Context {X : Type} (proj : state -> X) (P : X -> X -> Prop).
Hypothesis P_refl : forall x, P x x.
Hypothesis P_trans : forall x y z, P x y -> P y z -> P x z.

Lemma preserves_same {A} (m : M A) :
  (forall s, proj (snd (m s)) = proj s) -> preserves proj P m.
Proof. intros H s. rewrite H. apply P_refl. Qed.

Lemma preserves_bind {A B} (m : M A) (f : A -> M B) :
  preserves proj P m -> (forall a, preserves proj P (f a)) -> preserves proj P (bind m f).
Proof.
  intros Hm Hf s. unfold bind. specialize (Hm s).
  destruct (m s) as [[a| | |] s']; cbn [snd] in *; auto.
  eapply P_trans; [exact Hm|apply Hf].
Qed.

Lemma preserves_when b (m : M unit) :
  preserves proj P m -> preserves proj P (when b m).
Proof. intros H. destruct b; [exact H|]. intros s. apply P_refl. Qed.

Lemma preserves_for_upto n (body : Z -> M unit) :
  (forall k, preserves proj P (body k)) -> forall k, preserves proj P (for_upto n k body).
Proof.
  intros H. induction n as [|n IH]; intros k; cbn [for_upto].
  - intros s. apply P_refl.
  - apply preserves_bind; auto.
Qed.
End Frame.

Ltac frame_step Hrefl Htrans :=
  match goal with
  | |- preserves _ _ (bind _ _) => apply (preserves_bind _ _ Htrans); [|intros ?]
  | |- preserves _ _ (when _ _) => apply (preserves_when _ _ Hrefl)
  | |- preserves _ _ (for4 _) => apply (preserves_for_upto _ _ Hrefl Htrans); intros ?
  | |- preserves _ _ (for_upto _ _ _) => apply (preserves_for_upto _ _ Hrefl Htrans); intros ?
  | |- preserves _ _ (if ?b then _ else _) => destruct b
  | |- preserves _ _ (match ?x with _ => _ end) => destruct x
  | |- preserves _ _ (digitalRead ?p) =>
      apply (preserves_same _ _ Hrefl); intros ?; destruct p; reflexivity
  | |- preserves _ _ _ => solve [apply (preserves_same _ _ Hrefl); intros ?; reflexivity]
  | |- preserves _ _ _ => solve [auto]
  end.

Ltac frame Hrefl Htrans := repeat frame_step Hrefl Htrans.

(** Every procedure of the sketch respects a relation on traces that is
    closed under quiet events and under the two motor sequences. *)
Section TraceFrame.
Variable Pt : list event -> list event -> Prop.
Hypothesis Pt_refl : forall t, Pt t t.
Hypothesis Pt_trans : forall t1 t2 t3, Pt t1 t2 -> Pt t2 t3 -> Pt t1 t3.
Hypothesis Pt_quiet : forall e t, quiet e = true -> Pt t (e :: t).
Hypothesis Pt_open : forall t, Pt t (open_events ++ t).
Hypothesis Pt_close : forall t, Pt t (close_events ++ t).

Lemma keeps_emit e : quiet e = true -> preserves trace Pt (modify (emit e)).
Proof. intros H s. now apply Pt_quiet. Qed.

Ltac tr :=
  unfold digitalWrite, delay, Serial_print, Serial_printnum, EEPROM_read, EEPROM_write;
  repeat first [ frame_step Pt_refl Pt_trans | apply keeps_emit; reflexivity ].

Lemma keeps_readID n : preserves trace Pt (readID n).
Proof. unfold readID. tr. Qed.

Lemma keeps_checkTwo a b : preserves trace Pt (checkTwo a b).
Proof. unfold checkTwo. tr. Qed.

Lemma keeps_findID_loop fuel a count : forall i, preserves trace Pt (findID_loop fuel a count i).
Proof.
  pose proof keeps_readID. pose proof keeps_checkTwo.
  induction fuel as [|f IH]; intros i; cbn [findID_loop]; unfold timeout; tr.
Qed.

Lemma keeps_findID fuel a : preserves trace Pt (findID fuel a).
Proof. pose proof keeps_findID_loop. unfold findID. tr. Qed.

Lemma keeps_findIDSLOT_loop fuel a count : forall i, preserves trace Pt (findIDSLOT_loop fuel a count i).
Proof.
  pose proof keeps_readID. pose proof keeps_checkTwo.
  induction fuel as [|f IH]; intros i; cbn [findIDSLOT_loop]; unfold timeout, undefined; tr.
Qed.

Lemma keeps_findIDSLOT fuel a : preserves trace Pt (findIDSLOT fuel a).
Proof. pose proof keeps_findIDSLOT_loop. unfold findIDSLOT. tr. Qed.

Lemma keeps_isMaster a : preserves trace Pt (isMaster a).
Proof. pose proof keeps_checkTwo. unfold isMaster. tr. Qed.

Lemma keeps_writeID fuel a : preserves trace Pt (writeID fuel a).
Proof. pose proof keeps_findID. unfold writeID. tr. Qed.

Lemma keeps_deleteID fuel a : preserves trace Pt (deleteID fuel a).
Proof. pose proof keeps_findID. pose proof keeps_findIDSLOT. unfold deleteID. tr. Qed.

Lemma keeps_funopenDoor : preserves trace Pt funopenDoor.
Proof. intros s. apply Pt_open. Qed.

Lemma keeps_closeDoor_wait fuel : preserves trace Pt (closeDoor_wait fuel).
Proof.
  induction fuel as [|f IH]; cbn [closeDoor_wait]; unfold timeout, ultrasonic_distanceRead; tr.
Qed.

Lemma keeps_closeDoor fuel : preserves trace Pt (closeDoor fuel).
Proof.
  unfold closeDoor.
  apply (preserves_bind _ _ Pt_trans); [unfold delay; now apply keeps_emit|intros _].
  apply (preserves_bind _ _ Pt_trans); [apply keeps_closeDoor_wait|intros _].
  intros s. apply Pt_close.
Qed.

Lemma keeps_checkClose fuel : preserves trace Pt (checkClose fuel).
Proof. pose proof keeps_closeDoor. unfold checkClose, ultrasonic_distanceRead. tr. Qed.

Lemma keeps_checkSmoke_loop i : preserves trace Pt (checkSmoke_loop i).
Proof.
  pose proof keeps_funopenDoor.
  induction i as [|i IH]; cbn [checkSmoke_loop]; unfold analogRead_smokePin, halt; tr.
Qed.

Lemma keeps_checkSmoke : preserves trace Pt checkSmoke.
Proof. apply keeps_checkSmoke_loop. Qed.

Lemma keeps_getID : preserves trace Pt getID.
Proof. unfold getID, mfrc522_read. tr. Qed.

Lemma keeps_loop_poll fuel : preserves trace Pt (loop_poll fuel).
Proof.
  pose proof keeps_getID. pose proof keeps_checkSmoke. pose proof keeps_funopenDoor.
  pose proof keeps_closeDoor.
  induction fuel as [|f IH]; cbn [loop_poll]; unfold timeout, halt; tr.
Qed.

Lemma keeps_loop_dispatch fuel : preserves trace Pt (loop_dispatch fuel).
Proof.
  pose proof keeps_isMaster. pose proof keeps_findID. pose proof keeps_writeID.
  pose proof keeps_deleteID. pose proof keeps_funopenDoor. pose proof keeps_closeDoor.
  unfold loop_dispatch. tr.
Qed.

Lemma keeps_loop_body fuel :
  preserves trace Pt (checkClose fuel ;; loop_poll fuel ;; loop_dispatch fuel).
Proof.
  pose proof keeps_checkClose. pose proof keeps_loop_poll. pose proof keeps_loop_dispatch. tr.
Qed.

Lemma keeps_loop fuel : preserves trace Pt (loop fuel).
Proof.
  pose proof keeps_checkClose. pose proof keeps_loop_poll. pose proof keeps_loop_dispatch.
  unfold loop. tr.
Qed.

Lemma keeps_run fuel : preserves trace Pt (run fuel).
Proof.
  pose proof keeps_loop.
  induction fuel as [|f IH]; cbn [run]; unfold timeout; tr.
Qed.
End TraceFrame.

(** *** The motor interlock *)

Lemma extends_refl t : extends t t.
Proof. now exists []. Qed.

Lemma extends_trans t1 t2 t3 : extends t1 t2 -> extends t2 t3 -> extends t1 t3.
Proof. intros [d1 ->] [d2 ->]. exists (d2 ++ d1). now rewrite app_assoc. Qed.

Lemma keeps_safe_refl t : keeps_safe t t.
Proof. now intros H. Qed.

Lemma keeps_safe_trans t1 t2 t3 : keeps_safe t1 t2 -> keeps_safe t2 t3 -> keeps_safe t1 t3.
Proof. unfold keeps_safe. auto. Qed.

Lemma safe_levels t : safe t -> level motHigh t = false /\ level motLow t = false.
Proof.
  intros [H _]. unfold idle in H. apply andb_true_iff in H as [H1 H2].
  now destruct (level motHigh t), (level motLow t).
Qed.

Lemma keeps_safe_quiet e t : quiet e = true -> keeps_safe t (e :: t).
Proof.
  intros Hq Hs. destruct (safe_levels t Hs) as [H1 H2]. destruct Hs as [_ Ha].
  unfold safe, idle, interlocked. cbn [always_interlocked].
  unfold interlocked. rewrite Ha.
  destruct e as [p l| | |]; cbn [level]; rewrite ?H1, ?H2; try (split; reflexivity).
  destruct p, l; cbn in *; rewrite ?H1, ?H2; try discriminate; split; reflexivity.
Qed.

Lemma keeps_safe_open t : keeps_safe t (open_events ++ t).
Proof.
  intros Hs. destruct (safe_levels t Hs) as [H1 H2]. destruct Hs as [_ Ha].
  unfold safe, idle, open_events. cbn. unfold interlocked. cbn. rewrite ?H1, ?H2, ?Ha. now split.
Qed.

Lemma keeps_safe_close t : keeps_safe t (close_events ++ t).
Proof.
  intros Hs. destruct (safe_levels t Hs) as [H1 H2]. destruct Hs as [_ Ha].
  unfold safe, idle, close_events. cbn. unfold interlocked. cbn. rewrite ?H1, ?H2, ?Ha. now split.
Qed.

Lemma run_keeps_safe fuel : preserves trace keeps_safe (run fuel).
Proof.
  apply keeps_run.
  - exact keeps_safe_refl.
  - exact keeps_safe_trans.
  - exact keeps_safe_quiet.
  - exact keeps_safe_open.
  - exact keeps_safe_close.
Qed.

Lemma loop_body_extends fuel :
  preserves trace extends (checkClose fuel ;; loop_poll fuel ;; loop_dispatch fuel).
Proof.
  apply keeps_loop_body.
  - exact extends_refl.
  - exact extends_trans.
  - intros e t _. now exists [e].
  - intros t. now exists open_events.
  - intros t. now exists close_events.
Qed.

(** C8.  From a state whose motor outputs are both low and never were high
    together, however long the control loop runs and however it ends, the
    open and the close output were at no moment high together; and every
    cycle begins by writing LOW to the open output, the close output and the
    relay, before anything else it does. *)
Theorem motor_outputs_exclusive fuel st :
  safe (trace st) ->
  always_interlocked (trace (snd (run fuel st))) = true /\
  (forall n s, exists d, trace (snd (loop n s)) = d ++ clear_events ++ trace s).
Proof.
  intros Hs. split.
  - now apply (run_keeps_safe fuel st).
  - intros n s.
    apply (loop_body_extends n
      (emit (DigitalWrite rc LOW) (emit (DigitalWrite motLow LOW) (emit (DigitalWrite motHigh LOW) s)))).
Qed.

(** *** The close cycle *)

Lemma waiting_S n : forall st,
  waiting (S n) st =
  emit (Delay 500) (emit (SerialNum (distance (env st) (n + n_dist st)%nat))
    (set_n_dist (S (n_dist (waiting n st))) (waiting n st))).
Proof.
  induction n as [|n IH]; intros st; [reflexivity|].
  change (waiting (S (S n)) st) with
    (waiting (S n) (emit (Delay 500) (emit (SerialNum (distance (env st) (n_dist st)))
                   (set_n_dist (S (n_dist st)) st)))).
  rewrite IH. cbn [env emit set_n_dist n_dist waiting].
  replace (n + S (n_dist st))%nat with (S n + n_dist st)%nat by lia. reflexivity.
Qed.

Lemma waiting_frame n : forall st,
  env (waiting n st) = env st /\ n_dist (waiting n st) = (n + n_dist st)%nat /\
  eeprom (waiting n st) = eeprom st /\
  trace (waiting n st) = wait_trace (samples st n) ++ trace st.
Proof.
  induction n as [|n IH]; intros st; [repeat split|].
  rewrite waiting_S. destruct (IH st) as (H1 & H2 & H3 & H4).
  cbn [env emit set_n_dist n_dist eeprom trace].
  repeat split; auto.
  - rewrite H2. reflexivity.
  - rewrite H4. unfold samples, wait_trace.
    rewrite seq_S, map_app, rev_app_distr. reflexivity.
Qed.

Lemma closeDoor_wait_S f st :
  closeDoor_wait (S f) st =
  if clear (distance (env st) (n_dist st))
  then (Ret tt, waiting 1 st)
  else closeDoor_wait f (waiting 1 st).
Proof. cbn [closeDoor_wait waiting]. destruct (clear _) eqn:E; unfold bind, ultrasonic_distanceRead, Serial_printnum, delay, modify; rewrite E; reflexivity. Qed.

Lemma closeDoor_wait_blocked fuel : forall st,
  (forall i, (i < fuel)%nat -> clear (distance (env st) (i + n_dist st)%nat) = false) ->
  closeDoor_wait fuel st = (Timeout, waiting fuel st).
Proof.
  induction fuel as [|f IH]; intros st H; [reflexivity|].
  rewrite closeDoor_wait_S. cbn [waiting].
  pose proof (H O ltac:(lia)) as H0. cbn [Nat.add] in H0. rewrite H0.
  apply IH. intros i Hi. cbn [env emit set_n_dist n_dist].
  replace (i + S (n_dist st))%nat with (S i + n_dist st)%nat by lia. apply H. lia.
Qed.

Lemma closeDoor_wait_cleared fuel : forall st n,
  (n < fuel)%nat ->
  (forall i, (i < n)%nat -> clear (distance (env st) (i + n_dist st)%nat) = false) ->
  clear (distance (env st) (n + n_dist st)%nat) = true ->
  closeDoor_wait fuel st = (Ret tt, waiting (S n) st).
Proof.
  induction fuel as [|f IH]; intros st n Hn H Hc; [lia|].
  rewrite closeDoor_wait_S.
  destruct n as [|n].
  - cbn [Nat.add] in Hc. rewrite Hc. reflexivity.
  - pose proof (H O ltac:(lia)) as H0. cbn [Nat.add] in H0. rewrite H0.
    change (waiting (S (S n)) st) with
      (waiting (S n) (emit (Delay 500) (emit (SerialNum (distance (env st) (n_dist st)))
                   (set_n_dist (S (n_dist st)) st)))).
    apply IH; [lia| |]; cbn [env emit set_n_dist n_dist].
    + intros i Hi. replace (i + S (n_dist st))%nat with (S i + n_dist st)%nat by lia.
      apply H. lia.
    + replace (n + S (n_dist st))%nat with (S n + n_dist st)%nat by lia. exact Hc.
Qed.

Lemma level_wait_trace vs p t : level p (wait_trace vs ++ t) = level p t.
Proof.
  unfold wait_trace. induction (rev vs) as [|v l IH]; [reflexivity|]. exact IH.
Qed.

(** C7.  [closeDoor] samples the distance sensor every 500 ms.  While every
    reading is outside the clear band the close output is not written at all
    (the run is still waiting when the fuel is spent, and the level of the
    close output is what it was); when the reading number [n] is the first
    inside the band, the close output is set high after exactly [n+1]
    samples, held for 10200 ms and set low, and the procedure returns. *)
Theorem closeDoor_waits_for_clearance fuel st :
  ((forall i, (i < fuel)%nat -> clear (distance (env st) (i + n_dist st)%nat) = false) ->
   exists st', closeDoor fuel st = (Timeout, st') /\
     trace st' = wait_trace (samples st fuel) ++ Delay 2000 :: trace st /\
     level motLow (trace st') = level motLow (trace st)) /\
  (forall n, (n < fuel)%nat ->
     (forall i, (i < n)%nat -> clear (distance (env st) (i + n_dist st)%nat) = false) ->
     clear (distance (env st) (n + n_dist st)%nat) = true ->
     exists st', closeDoor fuel st = (Ret tt, st') /\
       trace st' = close_events ++ wait_trace (samples st (S n)) ++ Delay 2000 :: trace st).
Proof.
  split.
  - intros H. exists (waiting fuel (emit (Delay 2000) st)).
    destruct (waiting_frame fuel (emit (Delay 2000) st)) as (_ & _ & _ & Ht).
    split; [|split].
    + unfold closeDoor. unfold bind at 1, delay at 1, modify at 1.
      unfold bind at 1. now rewrite closeDoor_wait_blocked.
    + exact Ht.
    + rewrite Ht. now rewrite level_wait_trace.
  - intros n Hn H Hc.
    destruct (waiting_frame (S n) (emit (Delay 2000) st)) as (_ & _ & _ & Ht).
    eexists. split.
    + unfold closeDoor. unfold bind at 1, delay at 1, modify at 1.
      unfold bind at 1. rewrite (closeDoor_wait_cleared fuel _ n Hn) by assumption.
      reflexivity.
    + cbn [trace emit]. cbn [trace emit] in Ht. rewrite Ht. reflexivity.
Qed.

(** *** The safety monitor *)

Lemma checkSmoke_loop_S i st :
  checkSmoke_loop (S i) st =
  if 100 <? smoke (env st) (n_smoke st)
  then (Halt, alarmed 0 st)
  else checkSmoke_loop i (set_n_smoke (S (n_smoke st)) st).
Proof.
  cbn [checkSmoke_loop]. unfold bind at 1, analogRead_smokePin at 1.
  destruct (100 <? smoke (env st) (n_smoke st)); reflexivity.
Qed.

Lemma checkSmoke_loop_trips n : forall st k,
  (k < n)%nat ->
  100 < smoke (env st) (k + n_smoke st)%nat ->
  exists k', (k' <= k)%nat /\ checkSmoke_loop n st = (Halt, alarmed k' st).
Proof.
  induction n as [|n IH]; intros st k Hk Hs; [lia|].
  rewrite checkSmoke_loop_S.
  destruct (Z.ltb_spec 100 (smoke (env st) (n_smoke st))) as [H|H].
  - exists O. split; [lia|reflexivity].
  - destruct k as [|k]; [cbn [Nat.add] in Hs; lia|].
    destruct (IH (set_n_smoke (S (n_smoke st)) st) k) as (k' & Hk' & E); [lia| |].
    + cbn [env set_n_smoke n_smoke].
      replace (k + S (n_smoke st))%nat with (S k + n_smoke st)%nat by lia. exact Hs.
    + exists (S k'). split; [lia|]. rewrite E. unfold alarmed.
      cbn [set_n_smoke n_smoke eeprom matchF programMode successRead storedCard readCard
           masterCard env n_picc n_dist n_userOpen n_wipeB trace emit].
      replace (S k' + S (n_smoke st))%nat with (S (S k') + n_smoke st)%nat by lia.
      reflexivity.
Qed.

Lemma bind_Halt {A B} (m : M A) (f : A -> M B) s s' :
  m s = (Halt, s') -> bind m f s = (Halt, s').
Proof. intros H. unfold bind. now rewrite H. Qed.

Lemma getID_frame st :
  exists r st1, getID st = (Ret r, st1) /\
    env st1 = env st /\ n_smoke st1 = n_smoke st /\ eeprom st1 = eeprom st /\
    programMode st1 = programMode st /\ n_picc st1 = S (n_picc st) /\
    n_userOpen st1 = n_userOpen st /\ n_wipeB st1 = n_wipeB st /\
    extends (trace st) (trace st1).
Proof.
  unfold getID, bind, mfrc522_read. destruct (picc (env st) (n_picc st)) as [uid|].
  - eexists _, _. split; [reflexivity|]. cbn. repeat split.
    eexists [_; _; _; _; _; _]. reflexivity.
  - eexists _, _. split; [reflexivity|]. cbn. repeat split. exists []. reflexivity.
Qed.

(** C9.  When one of the four gas samples of a safety poll is above 100,
    [checkSmoke] prints the alarm line, runs the open cycle and stops in
    [while (1)]: whatever follows it is not run.  The same holds for the
    polling step of [loop] in either mode: one card poll, then the alarm, the
    open cycle and the halt, with the EEPROM, the mode and both button
    cursors as they were. *)
Theorem smoke_forces_open_and_halts fuel st k :
  (k < 4)%nat -> 100 < smoke (env st) (k + n_smoke st)%nat ->
  (exists st', checkSmoke st = (Halt, st') /\
     trace st' = open_events ++ Serial msg_alarm :: trace st /\
     eeprom st' = eeprom st /\ programMode st' = programMode st /\
     n_picc st' = n_picc st /\ n_userOpen st' = n_userOpen st /\ n_wipeB st' = n_wipeB st /\
     forall B (rest : unit -> M B), bind checkSmoke rest st = (Halt, st')) /\
  (exists st' t, loop_poll (S fuel) st = (Halt, st') /\
     trace st' = open_events ++ Serial msg_alarm :: t /\ extends (trace st) t /\
     eeprom st' = eeprom st /\ programMode st' = programMode st /\
     n_picc st' = S (n_picc st) /\ n_userOpen st' = n_userOpen st /\ n_wipeB st' = n_wipeB st /\
     forall B (rest : unit -> M B), bind (loop_poll (S fuel)) rest st = (Halt, st')).
Proof.
  intros Hk Hs. split.
  - destruct (checkSmoke_loop_trips 4 st k Hk Hs) as (k' & _ & E).
    exists (alarmed k' st). repeat split; try exact E.
    intros B rest. now apply bind_Halt.
  - destruct (getID_frame st) as (r & st1 & E1 & He & Hn & Hee & Hpm & Hp & Hu & Hw & Ht).
    destruct (checkSmoke_loop_trips 4 (set_successRead r st1) k Hk) as (k' & _ & E).
    { cbn [env set_successRead n_smoke]. now rewrite He, Hn. }
    assert (Ep : loop_poll (S fuel) st = (Halt, alarmed k' (set_successRead r st1))).
    { cbn [loop_poll]. rewrite (bind_Ret _ _ _ _ _ E1).
      unfold bind at 1, modify at 1. now apply bind_Halt. }
    exists (alarmed k' (set_successRead r st1)), (trace st1).
    repeat split; auto. intros B rest. now apply bind_Halt.
Qed.

(** *** Concrete stores and inputs *)

Lemma card_eqb_eq a b : card_eqb a b = true <-> a = b.
Proof.
  destruct a, b. unfold card_eqb. cbn. rewrite !andb_true_iff, !Z.eqb_eq.
  split; [intros [[[-> ->] ->] ->]; reflexivity|]. intros H. now inversion H.
Qed.

Lemma card_eqb_refl a : card_eqb a a = true.
Proof. now apply card_eqb_eq. Qed.

(** *** The comparator and a zero first byte *)

Lemma checkTwo_zero_unarmed a b st :
  card_get a 0 = 0 -> matchF st = false -> fst (checkTwo a b st) = Ret false.
Proof.
  intros Ha Hm. rewrite checkTwo_eq. cbn [fst]. unfold checkTwo_result.
  apply Z.eqb_eq in Ha. now rewrite Ha, Hm.
Qed.

Lemma findID_zero_unarmed fuel a st :
  card_get a 0 = 0 -> matchF st = false -> fst (findID fuel a st) <> Ret true.
Proof. intros Ha Hm. now apply findID_loop_zero. Qed.

(** C1 (the code at the failing input).  The comparator sets the global
    [match] only when the candidate's first byte is non-zero and never clears
    it otherwise, so a candidate that starts with zero inherits the verdict
    of the previous comparison.  Here the master card is 0.1.2.3 and the
    store holds 1.2.3.4: the first cycle scans the known card (access is
    granted and [match] stays set), the second scans the master card, which
    is recognised and puts the controller in Program mode. *)
Theorem zero_first_byte_can_match :
  let s0 := st_zero_master in
  let s1 := snd (loop 5 s0) in
  let s2 := snd (loop 5 s1) in
  masterCard s0 = card_Z /\ slot (eeprom s0) 1 = card_A /\ count_of s0 = 1 /\
  fst (loop 5 s0) = Ret tt /\ readCard s1 = card_A /\ programMode s1 = false /\
  matchF s1 = true /\
  fst (isMaster card_Z s1) = Ret true /\
  fst (loop 5 s1) = Ret tt /\ readCard s2 = card_Z /\ programMode s2 = true /\
  fst (checkTwo card_Z card_Z (set_matchF true s0)) = Ret true.
Proof. vm_compute. repeat split. Qed.

(** *** Entering Program mode *)

(** C6 (amended).  In Normal mode the scan of the master card, when the
    master card's first byte is not zero, puts the controller in Program
    mode, prints the greeting with the record count, leaves the EEPROM as it
    is and writes no pin; this for every store contents. *)
Theorem master_scan_enters_program fuel st :
  programMode st = false ->
  readCard st = masterCard st ->
  card_get (masterCard st) 0 <> 0 ->
  exists st', loop_dispatch fuel st = (Ret tt, st') /\
    programMode st' = true /\ eeprom st' = eeprom st /\
    trace st' = hello_events (count_of st) ++ trace st.
Proof.
  intros Hpm Hrc Hm.
  assert (Er : checkTwo_result (masterCard st) (masterCard st) (matchF st) = true).
  { unfold checkTwo_result. apply Z.eqb_neq in Hm. rewrite Hm. apply card_eqb_refl. }
  eexists. split.
  - unfold loop_dispatch. unfold bind at 1, get at 1. unfold bind at 1, get at 1.
    rewrite Hpm, Hrc. unfold isMaster. unfold bind at 1. unfold bind at 1, get at 1.
    unfold bind at 1. rewrite checkTwo_eq, Er. reflexivity.
  - repeat split.
Qed.

Lemma master_scan_enters_program_witness :
  let st := set_readCard card_M (power_on (provisioned card_M) (presenting [] (fun _ => 50))) in
  exists st', loop_dispatch 0 st = (Ret tt, st') /\
    programMode st' = true /\ eeprom st' = eeprom st /\
    trace st' = hello_events (count_of st) ++ trace st.
Proof.
  apply (master_scan_enters_program 0); [reflexivity|reflexivity|vm_compute; discriminate].
Defined.

(** C6 as stated fails for a master card that starts with a zero byte: on
    an empty store, freshly powered on, its scan is answered with the denial
    line and the controller stays in Normal mode. *)
Lemma master_with_zero_first_byte_denied :
  let s0 := power_on (provisioned card_Z) (presenting [card_Z] (fun _ => 50)) in
  let s1 := snd (loop 3 s0) in
  count_of s0 = 0 /\ masterCard s0 = card_Z /\ programMode s0 = false /\
  fst (loop 3 s0) = Ret tt /\ readCard s1 = masterCard s1 /\
  programMode s1 = false /\ hd (Delay 0) (trace s1) = Serial "You shall not pass" /\
  programMode (snd (loop_dispatch 3 (set_readCard card_Z s0))) = false.
Proof. vm_compute. repeat split. Qed.

(** *** Removal *)

Lemma findID_world fuel a st : same_world st (snd (findID fuel a st)).
Proof. apply findID_loop_world. Qed.

Lemma findIDSLOT_world fuel a st : same_world st (snd (findIDSLOT fuel a st)).
Proof. apply findIDSLOT_loop_world. Qed.

Lemma same_world_eeprom s s' : same_world s s' -> eeprom s' = eeprom s.
Proof. now intros [H _]. Qed.

Lemma same_world_trace s s' : same_world s s' -> trace s' = trace s.
Proof. unfold same_world. intuition. Qed.

(** A hit of [findIDSLOT] makes [deleteID] take its removing branch, at the same slot. *)
Lemma deleteID_at fuel a st s st1 :
  count_of st <= 254 ->
  findIDSLOT fuel a st = (Ret s, st1) ->
  1 <= s <= count_of st /\
  exists st2, same_world st st2 /\
    deleteID fuel a st =
    (Ret tt, emit (Serial msg_removed) (set_eeprom (deleted (count_of st) (eeprom st) s) st2)).
Proof.
  intros Hc H. unfold findIDSLOT, bind, EEPROM_read, get in H. fold (count_of st) in H.
  pose proof H as Hhit. apply findIDSLOT_loop_hit in Hhit; [|lia..].
  destruct Hhit as (Hs & Heq & Hlt & Hm & Hz & Hf).
  split; [exact Hs|].
  pose proof (findID_of_findIDSLOT _ _ _ _ _ _ _ H) as Hfind.
  pose proof (findIDSLOT_loop_world fuel a (count_of st) 1 st) as Hw1. rewrite H in Hw1.
  cbn [snd] in Hw1. pose proof (same_world_eeprom _ _ Hw1) as He1.
  destruct (findIDSLOT_loop_complete fuel a (count_of st) 1 st1 s) as (st2 & E2 & Hw2 & _);
    try lia; rewrite ?He1; auto.
  { destruct (Z.eq_dec (card_get a 0) 0) as [E0|E0]; [right|now left].
    destruct (Hz E0) as [_ ->]. now split. }
  exists st2. split; [eapply same_world_trans; eauto|].
  assert (Hfind' : findID fuel a st = (Ret true, st1)) by exact Hfind.
  assert (Hslot' : findIDSLOT fuel a st1 = (Ret s, st2)).
  { unfold findIDSLOT, bind, EEPROM_read, get. rewrite He1. exact E2. }
  rewrite (deleteID_hit _ _ _ _ _ _ Hfind' Hslot').
  rewrite (same_world_eeprom _ _ Hw2), He1. reflexivity.
Qed.

(** C3 (amended).  For a store of at most 63 records: when the lookup of the
    id fails, [deleteID] prints the failure line and leaves the EEPROM
    unchanged; when the lookup finds it at slot [s], [deleteID] decrements
    the count, moves slots [s+1..count] down by one in order and zeroes the
    vacated last slot. *)
Theorem deleteID_compacts fuel a st :
  eeprom_ok st -> count_of st <= 63 ->
  (forall st1, findID fuel a st = (Ret false, st1) ->
     exists st', deleteID fuel a st = (Ret tt, st') /\
       eeprom st' = eeprom st /\ trace st' = Serial msg_failed :: trace st) /\
  (forall s st1, findIDSLOT fuel a st = (Ret s, st1) ->
     exists st', deleteID fuel a st = (Ret tt, st') /\
       1 <= s <= count_of st /\ compacted (eeprom st) (eeprom st') s /\
       trace st' = Serial msg_removed :: trace st).
Proof.
  intros Hok Hc. split.
  - intros st1 H. eexists. split; [apply (deleteID_miss _ _ _ _ H)|].
    pose proof (findID_world fuel a st) as Hw. rewrite H in Hw. cbn [snd] in Hw.
    split; cbn [eeprom trace emit].
    + now apply same_world_eeprom.
    + f_equal. now apply same_world_trace.
  - intros s st1 H.
    destruct (deleteID_at fuel a st s st1) as (Hs & st2 & Hw & E); [lia|exact H|].
    eexists. split; [exact E|]. split; [exact Hs|]. split.
    + cbn [eeprom emit set_eeprom]. unfold compacted. fold (count_of st).
      split; [|split; [|split]].
      * rewrite peek_deleted by (auto; lia). reflexivity.
      * intros i Hi. apply slot_deleted_below; auto.
      * intros i Hi. apply slot_deleted_above; auto.
      * apply slot_deleted_tail; auto.
    + cbn [trace emit set_eeprom]. f_equal. now apply same_world_trace.
Qed.

(** *** Appending *)

Lemma findID_loop_miss_fuel fuel a count : forall i st st',
  count <= 254 -> 0 <= i <= count + 1 ->
  findID_loop fuel a count i st = (Ret false, st') ->
  count - i + 1 < Z.of_nat fuel.
Proof.
  induction fuel as [|f IH]; intros i st st' Hc Hi H; [discriminate|].
  rewrite findID_loop_S in H.
  destruct (Z.leb_spec i count) as [Ei|Ei]; [|lia].
  destruct (checkTwo_result _ _ _); [discriminate|].
  rewrite uint8_small in H by lia.
  apply IH in H; lia.
Qed.

Lemma start_not_zero num : 2 <= uint8 (num * 4 + 6) < 256.
Proof.
  unfold uint8.
  pose proof (Z.mod_pos_bound (num * 4 + 6) 256 ltac:(lia)).
  pose proof (Z.div_mod (num * 4 + 6) 256 ltac:(lia)). lia.
Qed.

Lemma peek_written_count e a :
  Z.of_nat (List.length e) = EEPROM_length ->
  peek (written e a) 0 = uint8 (peek e 0 + 1).
Proof.
  unfold EEPROM_length. intros Hl. unfold written.
  pose proof (start_not_zero (peek e 0)).
  rewrite !peek_poke by (rewrite ?length_poke; lia). bool_cases.
Qed.

(** C4 (amended).  For a store of at most 62 records and an id whose first
    byte is not zero and which the lookup does not find: appending it and
    then removing it restores the count and leaves every record in its slot. *)
Theorem append_then_remove fuel a st st1 :
  eeprom_ok st -> 0 <= count_of st <= 62 ->
  card_get a 0 <> 0 ->
  findID fuel a st = (Ret false, st1) ->
  exists st2 st3,
    writeID fuel a st = (Ret tt, st2) /\
    deleteID fuel a st2 = (Ret tt, st3) /\
    count_of st3 = count_of st /\
    (forall i, 1 <= i <= count_of st -> slot (eeprom st3) i = slot (eeprom st) i) /\
    trace st3 = Serial msg_removed :: Serial msg_added :: trace st.
Proof.
  intros Hok Hc Ha H.
  pose proof (findID_world fuel a st) as Hw. rewrite H in Hw. cbn [snd] in Hw.
  pose proof (same_world_eeprom _ _ Hw) as He.
  set (st2 := emit (Serial msg_added) (set_eeprom (written (eeprom st1) a) st1)).
  assert (He2 : eeprom st2 = written (eeprom st) a) by (cbn; now rewrite He).
  assert (Hok' : Z.of_nat (List.length (eeprom st)) = EEPROM_length) by exact Hok.
  assert (Hc2 : count_of st2 = count_of st + 1).
  { unfold count_of. rewrite He2, peek_written_count by auto. apply uint8_small.
    unfold count_of in Hc. lia. }
  assert (Hslots : forall i, 1 <= i <= count_of st -> slot (eeprom st2) i = slot (eeprom st) i).
  { intros i Hi. rewrite He2. unfold slot. rewrite uint8_small by lia.
    unfold count_of in *. rewrite !peek_written by (auto; lia). f_equal; bool_cases. }
  assert (Hnew : slot (eeprom st2) (count_of st + 1) = a).
  { rewrite He2. unfold slot. rewrite uint8_small by lia.
    unfold count_of in *. rewrite !peek_written by (auto; lia).
    destruct a as [a0 a1 a2 a3]. unfold card_get; cbn [c0 c1 c2 c3]. f_equal; bool_cases. }
  assert (Hfuel : count_of st < Z.of_nat fuel).
  { unfold findID, bind, EEPROM_read, get in H. fold (count_of st) in H.
    apply findID_loop_miss_fuel in H; lia. }
  assert (Hmiss : forall j, 1 <= j <= count_of st -> card_eqb a (slot (eeprom st) j) = false).
  { clear Hfuel. unfold findID, bind, EEPROM_read, get in H. fold (count_of st) in H.
    intros j Hj. eapply (findID_loop_miss fuel a (count_of st) 1); eauto; lia. }
  destruct (findIDSLOT_loop_complete fuel a (count_of st2) 1 st2 (count_of st + 1))
    as (st2' & E2 & _ & _); try lia.
  { rewrite Hnew. apply card_eqb_refl. }
  { intros j Hj. rewrite Hslots by lia. apply Hmiss. lia. }
  assert (Ok2 : eeprom_ok st2).
  { unfold eeprom_ok. rewrite He2. unfold written. now rewrite !length_poke. }
  destruct (deleteID_at fuel a st2 (count_of st + 1) st2') as (_ & st3 & Hw3 & E3);
    [lia|exact E2|].
  exists st2, (emit (Serial msg_removed)
                 (set_eeprom (deleted (count_of st2) (eeprom st2) (count_of st + 1)) st3)).
  split; [apply (writeID_miss _ _ _ _ H)|]. split; [exact E3|].
  cbn [eeprom trace emit set_eeprom]. unfold count_of at 1. cbn [eeprom emit set_eeprom].
  split; [|split].
  - rewrite peek_deleted by (try exact Ok2; lia). change (0 =? 0) with true. cbv iota. lia.
  - intros i Hi. rewrite slot_deleted_below by (try exact Ok2; lia). now apply Hslots.
  - rewrite (same_world_trace _ _ Hw3). unfold st2. cbn [trace emit set_eeprom].
    now rewrite (same_world_trace _ _ Hw).
Qed.

(** *** What the operations leave alone in the EEPROM *)

Lemma flag_only_refl e : flag_only e e.
Proof. now split. Qed.

Lemma flag_only_trans e1 e2 e3 : flag_only e1 e2 -> flag_only e2 e3 -> flag_only e1 e3.
Proof.
  intros [L1 H1] [L2 H2]. split; [congruence|]. intros i Hi Hn.
  rewrite H2, H1; auto.
Qed.

Lemma eq_frame_any {A} (P : list Z -> list Z -> Prop) (m : M A) :
  (forall e, P e e) -> preserves eeprom eq m -> preserves eeprom P m.
Proof. intros HP H s. rewrite <- (H s). apply HP. Qed.

Ltac ee := frame (@eq_refl (list Z)) (@eq_trans (list Z)).

Lemma eeprom_readID n : preserves eeprom eq (readID n).
Proof. unfold readID. ee. Qed.

Lemma eeprom_checkTwo a b : preserves eeprom eq (checkTwo a b).
Proof. unfold checkTwo. ee. Qed.

Lemma eeprom_findID fuel a : preserves eeprom eq (findID fuel a).
Proof. intros s. symmetry. apply same_world_eeprom, findID_world. Qed.

Lemma eeprom_isMaster a : preserves eeprom eq (isMaster a).
Proof. pose proof eeprom_checkTwo. unfold isMaster. ee. Qed.

Lemma eeprom_funopenDoor : preserves eeprom eq funopenDoor.
Proof. unfold funopenDoor. ee. Qed.

Lemma eeprom_closeDoor_wait fuel : preserves eeprom eq (closeDoor_wait fuel).
Proof. induction fuel as [|f IH]; cbn [closeDoor_wait]; ee. Qed.

Lemma eeprom_closeDoor fuel : preserves eeprom eq (closeDoor fuel).
Proof. pose proof eeprom_closeDoor_wait. unfold closeDoor. ee. Qed.

Lemma eeprom_checkClose fuel : preserves eeprom eq (checkClose fuel).
Proof. pose proof eeprom_closeDoor. unfold checkClose. ee. Qed.

Lemma eeprom_checkSmoke_loop i : preserves eeprom eq (checkSmoke_loop i).
Proof.
  pose proof eeprom_funopenDoor. induction i as [|i IH]; cbn [checkSmoke_loop]; ee.
Qed.

Lemma eeprom_getID : preserves eeprom eq getID.
Proof. unfold getID. ee. Qed.

Lemma flag_only_wipe : preserves eeprom flag_only (EEPROM_write 1 0).
Proof.
  intros s. change (flag_only (eeprom s) (poke (eeprom s) 1 0)).
  split; [apply length_poke|].
  intros i Hi Hn. apply peek_poke_other; lia.
Qed.

Lemma flag_only_loop_poll fuel : preserves eeprom flag_only (loop_poll fuel).
Proof.
  pose proof (eq_frame_any flag_only _ flag_only_refl eeprom_getID).
  pose proof (eq_frame_any flag_only _ flag_only_refl (eeprom_checkSmoke_loop 4)).
  pose proof (eq_frame_any flag_only _ flag_only_refl eeprom_funopenDoor).
  pose proof (fun f => eq_frame_any flag_only _ flag_only_refl (eeprom_closeDoor f)).
  pose proof flag_only_wipe.
  induction fuel as [|f IH]; cbn [loop_poll]; unfold checkSmoke;
    frame flag_only_refl flag_only_trans.
Qed.

Lemma loop_dispatch_normal fuel st :
  programMode st = false -> eeprom (snd (loop_dispatch fuel st)) = eeprom st.
Proof.
  intros Hpm. unfold loop_dispatch. unfold bind at 1, get at 1. unfold bind at 1, get at 1.
  rewrite Hpm.
  match goal with |- eeprom (snd (?m st)) = _ => assert (H : preserves eeprom eq m) end.
  { pose proof eeprom_isMaster. pose proof eeprom_findID. pose proof eeprom_funopenDoor.
    pose proof eeprom_closeDoor. ee. }
  symmetry. apply H.
Qed.

Lemma writeID_keeps_low fuel a st addr :
  eeprom_ok st -> 0 <= count_of st <= 62 -> 0 < addr < 6 ->
  peek (eeprom (snd (writeID fuel a st))) addr = peek (eeprom st) addr.
Proof.
  intros Hok Hc Ha.
  pose proof (findID_world fuel a st) as Hw. apply same_world_eeprom in Hw.
  destruct (findID fuel a st) as [[[|]| | |] st1] eqn:E; cbn [snd] in Hw.
  - rewrite (writeID_hit _ _ _ _ E). cbn. now rewrite Hw.
  - rewrite (writeID_miss _ _ _ _ E). cbn [snd eeprom emit set_eeprom]. rewrite Hw.
    unfold count_of in Hc. rewrite peek_written by (auto; lia). bool_cases.
  - unfold writeID, bind. rewrite E. cbn. now rewrite Hw.
  - unfold writeID, bind. rewrite E. cbn. now rewrite Hw.
  - unfold writeID, bind. rewrite E. cbn. now rewrite Hw.
Qed.

Lemma deleteID_keeps_low fuel a st addr :
  eeprom_ok st -> count_of st <= 63 -> 0 < addr < 6 ->
  peek (eeprom (snd (deleteID fuel a st))) addr = peek (eeprom st) addr.
Proof.
  intros Hok Hc Ha.
  pose proof (findID_world fuel a st) as Hw. apply same_world_eeprom in Hw.
  destruct (findID fuel a st) as [[[|]| | |] st1] eqn:E; cbn [snd] in Hw.
  - pose proof (findIDSLOT_world fuel a st1) as Hw2. apply same_world_eeprom in Hw2.
    destruct (findIDSLOT fuel a st1) as [[s| | |] st2] eqn:E2; cbn [snd] in Hw2.
    + rewrite (deleteID_hit _ _ _ _ _ _ E E2). cbn [snd eeprom emit set_eeprom].
      rewrite Hw2, Hw. fold (count_of st).
      assert (Hs : 1 <= s <= count_of st).
      { unfold findIDSLOT, bind, EEPROM_read, get in E2. rewrite Hw in E2.
        fold (count_of st) in E2. apply findIDSLOT_loop_hit in E2; lia. }
      rewrite peek_deleted by (auto; lia). bool_cases.
    + unfold deleteID, bind. rewrite E. cbn [negb]. unfold EEPROM_read, get. rewrite E2.
      cbn. now rewrite Hw2, Hw.
    + unfold deleteID, bind. rewrite E. cbn [negb]. unfold EEPROM_read, get. rewrite E2.
      cbn. now rewrite Hw2, Hw.
    + unfold deleteID, bind. rewrite E. cbn [negb]. unfold EEPROM_read, get. rewrite E2.
      cbn. now rewrite Hw2, Hw.
  - rewrite (deleteID_miss _ _ _ _ E). cbn. now rewrite Hw.
  - unfold deleteID, bind. rewrite E. cbn. now rewrite Hw.
  - unfold deleteID, bind. rewrite E. cbn. now rewrite Hw.
  - unfold deleteID, bind. rewrite E. cbn. now rewrite Hw.
Qed.

Lemma bind_after_frame {A B} (m : M A) (f : A -> M B) (Q : list Z -> Prop) s :
  preserves eeprom eq m -> Q (eeprom s) ->
  (forall a s', eeprom s' = eeprom s -> Q (eeprom (snd (f a s')))) ->
  Q (eeprom (snd (bind m f s))).
Proof.
  intros Hm Hq Hf. unfold bind. specialize (Hm s).
  destruct (m s) as [[a| | |] s']; cbn [snd] in *; rewrite <- ?Hm; auto.
Qed.

Lemma bind_before_frame {A B} (m : M A) (f : A -> M B) s :
  (forall a, preserves eeprom eq (f a)) ->
  eeprom (snd (bind m f s)) = eeprom (snd (m s)).
Proof.
  intros Hf. unfold bind. destruct (m s) as [[a| | |] s']; cbn [snd]; auto.
  symmetry. apply Hf.
Qed.

Lemma loop_dispatch_keeps_low fuel st addr :
  eeprom_ok st -> 0 <= count_of st <= 62 -> 0 < addr < 6 ->
  peek (eeprom (snd (loop_dispatch fuel st))) addr = peek (eeprom st) addr.
Proof.
  intros Hok Hc Ha. destruct (programMode st) eqn:Hpm;
    [|now rewrite loop_dispatch_normal].
  unfold loop_dispatch. unfold bind at 1, get at 1. unfold bind at 1, get at 1.
  rewrite Hpm.
  apply (bind_after_frame _ _ (fun e => peek e addr = peek (eeprom st) addr));
    [apply eeprom_isMaster|reflexivity|].
  intros [|] s1 H1.
  - match goal with |- peek (eeprom (snd (?m s1))) _ = _ =>
      assert (H : preserves eeprom eq m) by ee end.
    now rewrite <- (H s1), H1.
  - apply (bind_after_frame _ _ (fun e => peek e addr = peek (eeprom st) addr));
      [apply eeprom_findID|now rewrite H1|].
    intros [|] s2 H2; rewrite H1 in H2.
    + apply (bind_after_frame _ _ (fun e => peek e addr = peek (eeprom st) addr));
        [unfold Serial_print; ee|now rewrite H2|].
      intros _ s3 H3; rewrite H2 in H3.
      rewrite bind_before_frame by (intros; unfold Serial_print; ee).
      rewrite <- H3. apply deleteID_keeps_low; auto.
      * unfold eeprom_ok. now rewrite H3.
      * unfold count_of. rewrite H3. fold (count_of st). lia.
    + apply (bind_after_frame _ _ (fun e => peek e addr = peek (eeprom st) addr));
        [unfold Serial_print; ee|now rewrite H2|].
      intros _ s3 H3; rewrite H2 in H3.
      rewrite bind_before_frame by (intros; unfold Serial_print; ee).
      rewrite <- H3. apply writeID_keeps_low; auto.
      * unfold eeprom_ok. now rewrite H3.
      * unfold count_of. rewrite H3. fold (count_of st). lia.
Qed.

Lemma loop_keeps_low fuel st addr :
  eeprom_ok st -> 0 <= count_of st <= 62 -> 2 <= addr <= 5 ->
  peek (eeprom (snd (loop fuel st))) addr = peek (eeprom st) addr.
Proof.
  intros Hok Hc Ha. unfold loop.
  assert (Hpre : preserves eeprom flag_only
            (digitalWrite motHigh LOW ;; digitalWrite motLow LOW ;; digitalWrite rc LOW ;;
             checkClose fuel ;; loop_poll fuel)).
  { pose proof (eq_frame_any flag_only _ flag_only_refl (eeprom_checkClose fuel)).
    pose proof (flag_only_loop_poll fuel).
    unfold digitalWrite. frame flag_only_refl flag_only_trans. }
  specialize (Hpre st).
  assert (E : (digitalWrite motHigh LOW ;; digitalWrite motLow LOW ;; digitalWrite rc LOW ;;
               checkClose fuel ;; loop_poll fuel ;; loop_dispatch fuel) st =
              bind (digitalWrite motHigh LOW ;; digitalWrite motLow LOW ;; digitalWrite rc LOW ;;
                    checkClose fuel ;; loop_poll fuel) (fun _ => loop_dispatch fuel) st).
  { unfold bind, digitalWrite, modify.
    destruct (checkClose fuel _) as [[[]| | |] s1]; try reflexivity;
      destruct (loop_poll fuel s1) as [[[]| | |] s2]; reflexivity. }
  rewrite E. clear E. unfold bind at 1.
  destruct ((digitalWrite motHigh LOW ;; digitalWrite motLow LOW ;; digitalWrite rc LOW ;;
             checkClose fuel ;; loop_poll fuel) st) as [[[]| | |] s1];
    cbn [snd] in *; destruct Hpre as [Hl Hp]; try (apply Hp; lia).
  rewrite loop_dispatch_keeps_low; try lia.
  - apply Hp; lia.
  - unfold eeprom_ok in *. now rewrite Hl.
  - unfold count_of in *. rewrite Hp by lia. lia.
Qed.

(** X25.  On the 1024-byte EEPROM the master bytes 2-5 are left as they are
    by an append to a store of at most 62 records, by a removal from a store
    of at most 63, and by a whole cycle on a store of at most 62; in Normal
    mode the dispatch of a scan writes nothing to the EEPROM; the polling
    step, which contains the runtime wipe, writes no byte other than byte 1. *)
Theorem master_bytes_untouched fuel a st addr :
  eeprom_ok st -> 2 <= addr <= 5 ->
  (0 <= count_of st <= 62 ->
   peek (eeprom (snd (writeID fuel a st))) addr = peek (eeprom st) addr) /\
  (count_of st <= 63 ->
   peek (eeprom (snd (deleteID fuel a st))) addr = peek (eeprom st) addr) /\
  (programMode st = false -> eeprom (snd (loop_dispatch fuel st)) = eeprom st) /\
  (forall i, 0 <= i -> i <> 1 ->
   peek (eeprom (snd (loop_poll fuel st))) i = peek (eeprom st) i) /\
  (0 <= count_of st <= 62 ->
   peek (eeprom (snd (loop fuel st))) addr = peek (eeprom st) addr).
Proof.
  intros Hok Ha. split; [|split; [|split; [|split]]].
  - intros Hc. apply writeID_keeps_low; auto; lia.
  - intros Hc. apply deleteID_keeps_low; auto; lia.
  - apply loop_dispatch_normal.
  - intros i Hi Hn. now apply (flag_only_loop_poll fuel st).
  - intros Hc. now apply loop_keeps_low.
Qed.

(** *** The comparator and the two searches *)

Lemma findID_loop_hit fuel a count : forall i st st',
  count <= 254 -> 0 <= i ->
  findID_loop fuel a count i st = (Ret true, st') ->
  exists j, i <= j <= count /\ card_eqb a (slot (eeprom st) j) = true.
Proof.
  induction fuel as [|f IH]; intros i st st' Hc Hi H; [discriminate|].
  rewrite findID_loop_S in H.
  destruct (Z.leb_spec i count) as [Ei|Ei]; [|discriminate].
  destruct (checkTwo_result a (slot (eeprom st) i) (matchF st)) eqn:Er.
  - apply checkTwo_result_true in Er as [Er _]. exists i. split; [lia|exact Er].
  - rewrite uint8_small in H by lia. apply IH in H; try lia.
    destruct H as (j & Hj & E). exists j. split; [lia|exact E].
Qed.

Lemma uint8_range z : 0 <= uint8 z < 256.
Proof. unfold uint8. apply Z.mod_pos_bound. lia. Qed.

Lemma findID_loop_full fuel a : forall i st,
  0 <= i < 256 -> fst (findID_loop fuel a 255 i st) <> Ret false.
Proof.
  induction fuel as [|f IH]; intros i st Hi; [discriminate|].
  rewrite findID_loop_S.
  destruct (Z.leb_spec i 255) as [_|E]; [|lia].
  destruct (checkTwo_result _ _ _); [discriminate|].
  apply IH. apply uint8_range.
Qed.

Lemma findID_loop_full_absent fuel a : forall i st,
  0 <= i < 256 -> card_get a 0 <> 0 ->
  (forall j, 0 <= j < 256 -> slot (eeprom st) j <> a) ->
  fst (findID_loop fuel a 255 i st) = Timeout.
Proof.
  induction fuel as [|f IH]; intros i st Hi Ha Hn; [reflexivity|].
  rewrite findID_loop_S.
  destruct (Z.leb_spec i 255) as [_|E]; [|lia].
  destruct (checkTwo_result a (slot (eeprom st) i) (matchF st)) eqn:Er.
  - apply checkTwo_result_true in Er as [Er _]. apply card_eqb_eq in Er.
    exfalso. apply (Hn i Hi). now symmetry.
  - apply IH; [apply uint8_range|exact Ha|exact Hn].
Qed.

Lemma findIDSLOT_of_miss fuel a count : forall i st st',
  findID_loop fuel a count i st = (Ret false, st') ->
  findIDSLOT_loop fuel a count i st = (Undef, st').
Proof.
  induction fuel as [|f IH]; intros i st st' H; [discriminate|].
  rewrite findID_loop_S in H. rewrite findIDSLOT_loop_S.
  destruct (i <=? count).
  - destruct (checkTwo_result _ _ _); [discriminate|]. now apply IH.
  - now inversion H.
Qed.

(** X1.  For a candidate whose first byte is not zero the comparator decides
    equality of the four bytes, whatever was compared before, and leaves its
    verdict in [match]; nothing else changes. *)
Theorem checkTwo_decides_equality a b st :
  card_get a 0 <> 0 ->
  exists r, checkTwo a b st = (Ret r, set_matchF r st) /\ (r = true <-> a = b).
Proof.
  intros Ha. exists (card_eqb a b). split.
  - rewrite checkTwo_eq. unfold checkTwo_result.
    apply Z.eqb_neq in Ha. rewrite Ha. reflexivity.
  - apply card_eqb_eq.
Qed.

Lemma checkTwo_decides_equality_witness :
  exists r, checkTwo card_A card_M st_empty = (Ret r, set_matchF r st_empty) /\
            (r = true <-> card_A = card_M).
Proof. apply (checkTwo_decides_equality card_A card_M st_empty). vm_compute. discriminate. Defined.

(** X2.  While [match] is clear, a candidate whose first byte is zero matches
    nothing: the comparator answers false against every card (itself
    included), the lookup never answers true and leaves [match] clear, and
    the candidate is not taken for the master card. *)
Theorem zero_first_byte_unmatched_while_match_clear a st :
  card_get a 0 = 0 -> matchF st = false ->
  (forall b, fst (checkTwo a b st) = Ret false) /\
  (forall fuel, fst (findID fuel a st) <> Ret true /\
                matchF (snd (findID fuel a st)) = false) /\
  fst (isMaster a st) = Ret false.
Proof.
  intros Ha Hm. split; [|split].
  - intros b. now apply checkTwo_zero_unarmed.
  - intros fuel. now apply findID_loop_zero.
  - unfold isMaster. unfold bind at 1, get at 1. unfold bind.
    rewrite checkTwo_eq. unfold checkTwo_result.
    apply Z.eqb_eq in Ha. rewrite Ha, Hm. reflexivity.
Qed.

Lemma zero_first_byte_unmatched_while_match_clear_witness :
  (forall b, fst (checkTwo card_Z b st_zero_master) = Ret false) /\
  (forall fuel, fst (findID fuel card_Z st_zero_master) <> Ret true /\
                matchF (snd (findID fuel card_Z st_zero_master)) = false) /\
  fst (isMaster card_Z st_zero_master) = Ret false.
Proof.
  apply (zero_first_byte_unmatched_while_match_clear card_Z st_zero_master); reflexivity.
Defined.

(** X3.  Slot addresses are 8-bit: [readID] of slot [n + 64] loads the same
    four bytes as [readID] of slot [n], and slot 0 is the master card's
    bytes 2-5. *)
Theorem readID_aliases_every_64_slots n st :
  readID (n + 64) st = readID n st /\
  storedCard (snd (readID 0 st)) =
    mkCard (peek (eeprom st) 2) (peek (eeprom st) 3) (peek (eeprom st) 4) (peek (eeprom st) 5).
Proof.
  split; [|reflexivity].
  rewrite !readID_eq. unfold slot, uint8.
  replace ((n + 64) * 4 + 2) with (n * 4 + 2 + 1 * 256) by lia.
  now rewrite Z.mod_add by lia.
Qed.

(** X4.  On a store of at most 254 records, given one unit of fuel per record
    and one more, the lookup of a card whose first byte is not zero returns,
    answers true exactly when one of the slots [1..count] holds the card, and
    changes nothing but the scratch globals [storedCard] and [match]. *)
Theorem findID_decides_membership fuel a st :
  card_get a 0 <> 0 -> 0 <= count_of st <= 254 -> count_of st < Z.of_nat fuel ->
  exists r st', findID fuel a st = (Ret r, st') /\ same_world st st' /\
    (r = true <-> exists j, 1 <= j <= count_of st /\ slot (eeprom st) j = a).
Proof.
  intros Ha Hc Hf.
  destruct (findID_loop_returns fuel a (count_of st) 1 st) as (r & st' & E); try lia.
  exists r, st'. split; [exact E|]. split.
  - pose proof (findID_world fuel a st) as Hw.
    unfold findID, bind, EEPROM_read, get in Hw. fold (count_of st) in Hw.
    now rewrite E in Hw.
  - destruct r.
    + split; [intros _|reflexivity].
      apply findID_loop_hit in E; try lia. destruct E as (j & Hj & Ej).
      exists j. split; [exact Hj|]. symmetry. now apply card_eqb_eq.
    + split; [discriminate|]. intros (j & Hj & Ej). exfalso.
      assert (Hn : card_eqb a (slot (eeprom st) j) = false)
        by (eapply (findID_loop_miss fuel a (count_of st) 1); eauto; lia).
      rewrite Ej, card_eqb_refl in Hn. discriminate.
Qed.

Lemma findID_decides_membership_witness :
  exists r st', findID 5 (user 2) st_three = (Ret r, st') /\ same_world st_three st' /\
    (r = true <-> exists j, 1 <= j <= count_of st_three /\ slot (eeprom st_three) j = user 2).
Proof.
  apply (findID_decides_membership 5 (user 2) st_three).
  - vm_compute. discriminate.
  - vm_compute. split; discriminate.
  - vm_compute. reflexivity.
Defined.

(** X5.  With a count byte of 255 the 8-bit loop counter can never exceed the
    count: the lookup never answers false, and for a card (first byte not
    zero) that none of the 256 slot addresses holds it does not return at
    all, however much fuel it is given. *)
Theorem findID_count_255_never_misses fuel a st :
  count_of st = 255 ->
  fst (findID fuel a st) <> Ret false /\
  (card_get a 0 <> 0 -> (forall j, 0 <= j < 256 -> slot (eeprom st) j <> a) ->
   fst (findID fuel a st) = Timeout).
Proof.
  intros Hc. unfold findID, bind, EEPROM_read, get. fold (count_of st). rewrite Hc. split.
  - apply findID_loop_full. lia.
  - intros Ha Hn. apply findID_loop_full_absent; auto. lia.
Qed.

Lemma findID_count_255_never_misses_witness :
  let st := set_eeprom (poke (eeprom st_empty) 0 255) st_empty in
  fst (findID 600 card_A st) <> Ret false /\
  (card_get card_A 0 <> 0 -> (forall j, 0 <= j < 256 -> slot (eeprom st) j <> card_A) ->
   fst (findID 600 card_A st) = Timeout).
Proof.
  apply (findID_count_255_never_misses 600 card_A
           (set_eeprom (poke (eeprom st_empty) 0 255) st_empty)).
  reflexivity.
Defined.

(** X6.  On a store of at most 254 records, a slot that [findIDSLOT] returns
    is the first of the slots [1..count] that holds the card, and the lookup
    answers true for the same card in the same state.  When the lookup
    answers false, [findIDSLOT] runs off its end without a return value. *)
Theorem findIDSLOT_returns_first_match fuel a st :
  count_of st <= 254 ->
  (forall s st', findIDSLOT fuel a st = (Ret s, st') ->
     1 <= s <= count_of st /\ slot (eeprom st) s = a /\
     (forall j, 1 <= j < s -> slot (eeprom st) j <> a) /\
     findID fuel a st = (Ret true, st')) /\
  (forall st', findID fuel a st = (Ret false, st') ->
     findIDSLOT fuel a st = (Undef, st')).
Proof.
  intros Hc. split.
  - intros s st' H. unfold findIDSLOT, bind, EEPROM_read, get in H.
    fold (count_of st) in H. pose proof H as Hhit.
    apply findIDSLOT_loop_hit in Hhit; try lia.
    destruct Hhit as (Hs & He & Hn & _).
    split; [exact Hs|]. split; [symmetry; now apply card_eqb_eq|]. split.
    + intros j Hj E. pose proof (Hn j Hj) as Hj'.
      rewrite E, card_eqb_refl in Hj'. discriminate.
    + exact (findID_of_findIDSLOT _ _ _ _ _ _ _ H).
  - intros st' H. exact (findIDSLOT_of_miss _ _ _ _ _ _ H).
Qed.

Lemma findIDSLOT_returns_first_match_witness :
  (forall s st', findIDSLOT 5 (user 2) st_three = (Ret s, st') ->
     1 <= s <= count_of st_three /\ slot (eeprom st_three) s = user 2 /\
     (forall j, 1 <= j < s -> slot (eeprom st_three) j <> user 2) /\
     findID 5 (user 2) st_three = (Ret true, st')) /\
  (forall st', findID 5 (user 2) st_three = (Ret false, st') ->
     findIDSLOT 5 (user 2) st_three = (Undef, st')).
Proof.
  apply (findIDSLOT_returns_first_match 5 (user 2) st_three). vm_compute. discriminate.
Defined.

(** X7.  [isMaster] of a card whose first byte is not zero answers true
    exactly when the card is the master card held in RAM, and changes nothing
    but [match]. *)
Theorem isMaster_decides_master test st :
  card_get test 0 <> 0 ->
  exists r st', isMaster test st = (Ret r, st') /\ same_world st st' /\
    (r = true <-> test = masterCard st).
Proof.
  intros Ha. exists (card_eqb test (masterCard st)), (set_matchF (card_eqb test (masterCard st)) st).
  split; [|split].
  - unfold isMaster. unfold bind at 1, get at 1. unfold bind.
    rewrite checkTwo_eq. unfold checkTwo_result.
    apply Z.eqb_neq in Ha. rewrite Ha. cbn [andb].
    destruct (card_eqb test (masterCard st)); reflexivity.
  - repeat split.
  - apply card_eqb_eq.
Qed.

Lemma isMaster_decides_master_witness :
  exists r st', isMaster card_M st_empty = (Ret r, st') /\ same_world st_empty st' /\
    (r = true <-> card_M = masterCard st_empty).
Proof. apply (isMaster_decides_master card_M st_empty). vm_compute. discriminate. Defined.

(** *** Lookups before and after a change of the store *)

Lemma findID_loop_first fuel a count : forall i st st',
  count <= 254 -> 0 <= i -> card_get a 0 <> 0 ->
  findID_loop fuel a count i st = (Ret true, st') ->
  exists j, i <= j <= count /\ slot (eeprom st) j = a /\
    (forall k, i <= k < j -> slot (eeprom st) k <> a) /\ j - i < Z.of_nat fuel.
Proof.
  induction fuel as [|f IH]; intros i st st' Hc Hi Ha H; [discriminate|].
  rewrite findID_loop_S in H.
  destruct (Z.leb_spec i count) as [Ei|Ei]; [|discriminate].
  destruct (checkTwo_result a (slot (eeprom st) i) (matchF st)) eqn:Er.
  - apply checkTwo_result_true in Er as [Er _]. apply card_eqb_eq in Er.
    exists i. repeat split; try lia. now symmetry.
  - rewrite uint8_small in H by lia. apply IH in H; try lia; auto.
    destruct H as (j & Hj & E & Hn & Hf).
    change (eeprom (visited a i st)) with (eeprom st) in *.
    exists j. repeat split; try lia; auto.
    intros k Hk. destruct (Z.eq_dec k i) as [->|Hki]; [|apply Hn; lia].
    apply checkTwo_result_false in Er as [Er|[Er _]]; [|contradiction].
    intros E'. rewrite E', card_eqb_refl in Er. discriminate.
Qed.

Lemma findID_first_found fuel a st j :
  count_of st <= 254 -> card_get a 0 <> 0 -> 1 <= j <= count_of st ->
  slot (eeprom st) j = a -> (forall k, 1 <= k < j -> slot (eeprom st) k <> a) ->
  j - 1 < Z.of_nat fuel ->
  fst (findID fuel a st) = Ret true /\ fst (findIDSLOT fuel a st) = Ret j.
Proof.
  intros Hc Ha Hj E Hn Hf.
  destruct (findIDSLOT_loop_complete fuel a (count_of st) 1 st j) as (st' & E1 & _ & _);
    try lia; auto.
  - rewrite E. apply card_eqb_refl.
  - intros k Hk. destruct (card_eqb a (slot (eeprom st) k)) eqn:Ek; [|reflexivity].
    apply card_eqb_eq in Ek. exfalso. apply (Hn k Hk). now symmetry.
  - split.
    + unfold findID, bind, EEPROM_read, get. fold (count_of st).
      now rewrite (findID_of_findIDSLOT _ _ _ _ _ _ _ E1).
    + unfold findIDSLOT, bind, EEPROM_read, get. fold (count_of st). now rewrite E1.
Qed.

Lemma findID_absent_false fuel a st :
  0 <= count_of st <= 254 -> count_of st < Z.of_nat fuel ->
  (forall j, 1 <= j <= count_of st -> slot (eeprom st) j <> a) ->
  fst (findID fuel a st) = Ret false.
Proof.
  intros Hc Hf Hn.
  destruct (findID_loop_returns fuel a (count_of st) 1 st) as (r & st' & E); try lia.
  unfold findID, bind, EEPROM_read, get. fold (count_of st). rewrite E. cbn [fst].
  destruct r; [|reflexivity].
  apply findID_loop_hit in E; try lia. destruct E as (j & Hj & Ej).
  apply card_eqb_eq in Ej. exfalso. apply (Hn j Hj). now symmetry.
Qed.

(** What an append that goes through leaves behind. *)
Lemma writeID_appends fuel a st st1 :
  eeprom_ok st -> 0 <= count_of st <= 62 ->
  findID fuel a st = (Ret false, st1) ->
  exists st2, writeID fuel a st = (Ret tt, st2) /\ eeprom_ok st2 /\
    count_of st2 = count_of st + 1 /\
    (forall i, 1 <= i <= count_of st -> slot (eeprom st2) i = slot (eeprom st) i) /\
    slot (eeprom st2) (count_of st + 1) = a /\
    count_of st < Z.of_nat fuel.
Proof.
  intros Hok Hc H.
  pose proof (findID_world fuel a st) as Hw. rewrite H in Hw. cbn [snd] in Hw.
  pose proof (same_world_eeprom _ _ Hw) as He.
  exists (emit (Serial msg_added) (set_eeprom (written (eeprom st1) a) st1)).
  split; [apply (writeID_miss _ _ _ _ H)|].
  unfold eeprom_ok, count_of in *. cbn [eeprom emit set_eeprom]. rewrite He.
  split; [|split; [|split; [|split]]].
  - unfold written. now rewrite !length_poke.
  - rewrite peek_written_count by auto. apply uint8_small. lia.
  - intros i Hi. unfold slot. rewrite uint8_small by lia.
    rewrite !peek_written by (auto; lia). f_equal; bool_cases.
  - unfold slot. rewrite uint8_small by lia.
    rewrite !peek_written by (auto; lia).
    destruct a as [a0 a1 a2 a3]. unfold card_get; cbn [c0 c1 c2 c3]. f_equal; bool_cases.
  - unfold findID, bind, EEPROM_read, get in H.
    apply findID_loop_miss_fuel in H; lia.
Qed.

(** What a removal at slot [s] leaves behind. *)
Lemma deleteID_removes fuel a st s st1 :
  eeprom_ok st -> count_of st <= 63 ->
  findIDSLOT fuel a st = (Ret s, st1) ->
  exists st', deleteID fuel a st = (Ret tt, st') /\ eeprom_ok st' /\
    1 <= s <= count_of st /\ count_of st' = count_of st - 1 /\
    slot (eeprom st) s = a /\
    (forall k, 1 <= k < s -> slot (eeprom st) k <> a) /\
    (forall i, 1 <= i < s -> slot (eeprom st') i = slot (eeprom st) i) /\
    (forall i, s <= i < count_of st -> slot (eeprom st') i = slot (eeprom st) (i + 1)).
Proof.
  intros Hok Hc H.
  destruct (deleteID_at fuel a st s st1) as (Hs & st2 & Hw & E); [lia|exact H|].
  unfold findIDSLOT, bind, EEPROM_read, get in H. fold (count_of st) in H.
  apply findIDSLOT_loop_hit in H; try lia. destruct H as (_ & He & Hn & _).
  eexists. split; [exact E|].
  unfold eeprom_ok in *. cbn [eeprom emit set_eeprom]. unfold count_of at 3.
  cbn [eeprom emit set_eeprom].
  split; [|split; [|split; [|split; [|split; [|split]]]]].
  - unfold deleted. now rewrite !length_poke, length_shifted, length_poke.
  - exact Hs.
  - rewrite peek_deleted by (auto; lia). reflexivity.
  - symmetry. now apply card_eqb_eq.
  - intros k Hk E'. pose proof (Hn k Hk) as Hk'. rewrite E', card_eqb_refl in Hk'. discriminate.
  - intros i Hi. apply slot_deleted_below; auto.
  - intros i Hi. apply slot_deleted_above; auto.
Qed.

(** X8.  [writeID] of a card the lookup finds does not write: it returns,
    prints the failure line and leaves every EEPROM byte as it was. *)
Theorem writeID_known_card_refused fuel a st st1 :
  findID fuel a st = (Ret true, st1) ->
  exists st', writeID fuel a st = (Ret tt, st') /\ eeprom st' = eeprom st /\
    trace st' = Serial msg_failed :: trace st.
Proof.
  intros H. pose proof (findID_world fuel a st) as Hw. rewrite H in Hw. cbn [snd] in Hw.
  exists (emit (Serial msg_failed) st1). split; [apply (writeID_hit _ _ _ _ H)|].
  cbn [eeprom trace emit]. split.
  - now apply same_world_eeprom.
  - f_equal. now apply same_world_trace.
Qed.

Lemma writeID_known_card_refused_witness :
  exists st', writeID 5 (user 2) st_three = (Ret tt, st') /\ eeprom st' = eeprom st_three /\
    trace st' = Serial msg_failed :: trace st_three.
Proof.
  apply (writeID_known_card_refused 5 (user 2) st_three (snd (findID 5 (user 2) st_three))).
  vm_compute. reflexivity.
Defined.

(** X9.  On a store of at most 62 records, a card whose first byte is not
    zero is found right after it was appended, in the slot after the former
    last one. *)
Theorem append_then_lookup fuel a st st1 :
  eeprom_ok st -> 0 <= count_of st <= 62 -> card_get a 0 <> 0 ->
  findID fuel a st = (Ret false, st1) ->
  exists st2, writeID fuel a st = (Ret tt, st2) /\
    fst (findID fuel a st2) = Ret true /\
    fst (findIDSLOT fuel a st2) = Ret (count_of st + 1).
Proof.
  intros Hok Hc Ha H.
  assert (Hmiss : forall j, 1 <= j <= count_of st -> slot (eeprom st) j <> a).
  { pose proof H as H'. unfold findID, bind, EEPROM_read, get in H'. fold (count_of st) in H'.
    intros j Hj E.
    assert (Hn : card_eqb a (slot (eeprom st) j) = false)
      by (eapply (findID_loop_miss fuel a (count_of st) 1); eauto; lia).
    rewrite E, card_eqb_refl in Hn. discriminate. }
  destruct (writeID_appends fuel a st st1 Hok Hc H) as (st2 & E & Hok2 & Hc2 & Hs & Hnew & Hf).
  exists st2. split; [exact E|].
  apply findID_first_found; try lia; auto.
  intros k Hk. rewrite Hs by lia. apply Hmiss. lia.
Qed.

Lemma append_then_lookup_witness :
  exists st2, writeID 5 card_A st_three = (Ret tt, st2) /\
    fst (findID 5 card_A st2) = Ret true /\
    fst (findIDSLOT 5 card_A st2) = Ret (count_of st_three + 1).
Proof.
  apply (append_then_lookup 5 card_A st_three (snd (findID 5 card_A st_three))).
  - vm_compute. reflexivity.
  - vm_compute. split; discriminate.
  - vm_compute. discriminate.
  - vm_compute. reflexivity.
Defined.

(** X10.  On a store of at most 62 records, an append does not disturb the
    other cards: a card (first byte not zero) that the lookup found before
    the append is found after it. *)
Theorem append_keeps_other_cards fuel a b st st1 st1' :
  eeprom_ok st -> 0 <= count_of st <= 62 -> card_get b 0 <> 0 ->
  findID fuel a st = (Ret false, st1) ->
  findID fuel b st = (Ret true, st1') ->
  exists st2, writeID fuel a st = (Ret tt, st2) /\ fst (findID fuel b st2) = Ret true.
Proof.
  intros Hok Hc Hb H Hfound.
  destruct (writeID_appends fuel a st st1 Hok Hc H) as (st2 & E & Hok2 & Hc2 & Hs & Hnew & Hf).
  exists st2. split; [exact E|].
  unfold findID, bind, EEPROM_read, get in Hfound. fold (count_of st) in Hfound.
  apply findID_loop_first in Hfound; try lia; auto.
  destruct Hfound as (j & Hj & Ej & Hn & Hfj).
  apply (findID_first_found fuel b st2 j); try lia; auto.
  - now rewrite Hs by lia.
  - intros k Hk. rewrite Hs by lia. apply Hn. lia.
Qed.

Lemma append_keeps_other_cards_witness :
  exists st2, writeID 5 card_A st_three = (Ret tt, st2) /\
              fst (findID 5 (user 2) st2) = Ret true.
Proof.
  apply (append_keeps_other_cards 5 card_A (user 2) st_three
           (snd (findID 5 card_A st_three)) (snd (findID 5 (user 2) st_three))).
  - vm_compute. reflexivity.
  - vm_compute. split; discriminate.
  - vm_compute. discriminate.
  - vm_compute. reflexivity.
  - vm_compute. reflexivity.
Defined.

(** X11.  On a store of at most 63 records in which the card occurs in no
    slot after the one [findIDSLOT] returns, the lookup of a card answers
    false right after its removal. *)
Theorem remove_then_lookup_fails fuel a st s st1 :
  eeprom_ok st -> 0 <= count_of st <= 63 -> count_of st < Z.of_nat fuel ->
  findIDSLOT fuel a st = (Ret s, st1) ->
  (forall j, s < j <= count_of st -> slot (eeprom st) j <> a) ->
  exists st', deleteID fuel a st = (Ret tt, st') /\ fst (findID fuel a st') = Ret false.
Proof.
  intros Hok Hc Hf H Hlater.
  destruct (deleteID_removes fuel a st s st1) as
    (st' & E & Hok' & Hs & Hc' & Ea & Hn & Hbelow & Habove); auto; try lia.
  exists st'. split; [exact E|].
  apply findID_absent_false; try lia.
  intros j Hj. destruct (Z.lt_ge_cases j s) as [Hlt|Hge].
  - rewrite Hbelow by lia. apply Hn. lia.
  - rewrite Habove by lia. apply Hlater. lia.
Qed.

Lemma remove_then_lookup_fails_witness :
  exists st', deleteID 5 (user 2) st_three = (Ret tt, st') /\
              fst (findID 5 (user 2) st') = Ret false.
Proof.
  apply (remove_then_lookup_fails 5 (user 2) st_three 2 (snd (findIDSLOT 5 (user 2) st_three))).
  - vm_compute. reflexivity.
  - vm_compute. split; discriminate.
  - vm_compute. reflexivity.
  - vm_compute. reflexivity.
  - intros j Hj. assert (Hc : count_of st_three = 3) by (vm_compute; reflexivity).
    rewrite Hc in Hj. assert (j = 3) as -> by lia. vm_compute. discriminate.
Defined.

(** X12.  On a store of at most 63 records, a removal does not lose the
    other cards: a different card (first byte not zero) that the lookup
    found before the removal is found after it. *)
Theorem removal_keeps_other_cards fuel a b st s st1 st1' :
  eeprom_ok st -> count_of st <= 63 -> card_get b 0 <> 0 -> b <> a ->
  findIDSLOT fuel a st = (Ret s, st1) ->
  findID fuel b st = (Ret true, st1') ->
  exists st', deleteID fuel a st = (Ret tt, st') /\ fst (findID fuel b st') = Ret true.
Proof.
  intros Hok Hc Hb Hne H Hfound.
  destruct (deleteID_removes fuel a st s st1) as
    (st' & E & Hok' & Hs & Hc' & Ea & Hn & Hbelow & Habove); auto.
  exists st'. split; [exact E|].
  unfold findID, bind, EEPROM_read, get in Hfound. fold (count_of st) in Hfound.
  apply findID_loop_first in Hfound; try lia; auto.
  destruct Hfound as (j & Hj & Ej & Hnb & Hfj).
  assert (Hjs : j <> s) by (intros ->; congruence).
  destruct (Z.lt_ge_cases j s) as [Hlt|Hge].
  - apply (findID_first_found fuel b st' j); try lia; auto.
    + now rewrite Hbelow by lia.
    + intros k Hk. rewrite Hbelow by lia. apply Hnb. lia.
  - apply (findID_first_found fuel b st' (j - 1)); try lia; auto.
    + rewrite Habove by lia. now replace (j - 1 + 1) with j by lia.
    + intros k Hk. destruct (Z.lt_ge_cases k s) as [Hks|Hks].
      * rewrite Hbelow by lia. apply Hnb. lia.
      * rewrite Habove by lia. apply Hnb. lia.
Qed.

Lemma removal_keeps_other_cards_witness :
  exists st', deleteID 5 (user 2) st_three = (Ret tt, st') /\
              fst (findID 5 (user 3) st') = Ret true.
Proof.
  apply (removal_keeps_other_cards 5 (user 2) (user 3) st_three 2
           (snd (findIDSLOT 5 (user 2) st_three)) (snd (findID 5 (user 3) st_three))).
  - vm_compute. reflexivity.
  - vm_compute. discriminate.
  - vm_compute. discriminate.
  - discriminate.
  - vm_compute. reflexivity.
  - vm_compute. reflexivity.
Defined.

Lemma waiting_cursors n : forall st,
  n_picc (waiting n st) = n_picc st /\ n_smoke (waiting n st) = n_smoke st /\
  n_userOpen (waiting n st) = n_userOpen st /\ n_wipeB (waiting n st) = n_wipeB st /\
  programMode (waiting n st) = programMode st.
Proof.
  induction n as [|n IH]; intros st; [repeat split|].
  cbn [waiting]. destruct (IH (emit (Delay 500) (emit (SerialNum (distance (env st) (n_dist st)))
                   (set_n_dist (S (n_dist st)) st)))) as (H1 & H2 & H3 & H4 & H5).
  rewrite H1, H2, H3, H4, H5. repeat split.
Qed.

Lemma closeDoor_blocked fuel st :
  (forall i, (i < fuel)%nat -> clear (distance (env st) (i + n_dist st)%nat) = false) ->
  closeDoor fuel st = (Timeout, waiting fuel (emit (Delay 2000) st)).
Proof.
  intros H. unfold closeDoor. unfold bind at 1, delay at 1, modify at 1.
  unfold bind at 1. now rewrite closeDoor_wait_blocked.
Qed.

Lemma closeDoor_cleared fuel st n :
  (n < fuel)%nat ->
  (forall i, (i < n)%nat -> clear (distance (env st) (i + n_dist st)%nat) = false) ->
  clear (distance (env st) (n + n_dist st)%nat) = true ->
  closeDoor fuel st =
  (Ret tt, emit (DigitalWrite motLow LOW) (emit (Delay 10200) (emit (DigitalWrite motLow HIGH)
             (waiting (S n) (emit (Delay 2000) st))))).
Proof.
  intros Hn H Hc. unfold closeDoor. unfold bind at 1, delay at 1, modify at 1.
  unfold bind at 1. rewrite (closeDoor_wait_cleared fuel _ n Hn) by assumption.
  reflexivity.
Qed.

Lemma loop_checkClose fuel st :
  loop fuel st =
  if clear (distance (env st) (n_dist st))
  then (closeDoor fuel ;; loop_poll fuel ;; loop_dispatch fuel)
         (set_n_dist (S (n_dist st))
            (emit (DigitalWrite rc LOW) (emit (DigitalWrite motLow LOW)
               (emit (DigitalWrite motHigh LOW) st))))
  else (loop_poll fuel ;; loop_dispatch fuel)
         (set_n_dist (S (n_dist st))
            (emit (DigitalWrite rc LOW) (emit (DigitalWrite motLow LOW)
               (emit (DigitalWrite motHigh LOW) st)))).
Proof.
  unfold loop, checkClose.
  unfold bind at 1, digitalWrite at 1, modify at 1.
  unfold bind at 1, digitalWrite at 1, modify at 1.
  unfold bind at 1, digitalWrite at 1, modify at 1.
  unfold bind at 1. unfold bind at 1, ultrasonic_distanceRead at 1.
  cbn [env emit n_dist].
  destruct (clear (distance (env st) (n_dist st))); reflexivity.
Qed.

(** *** The first thing [loop] does *)

(** C10.  A cycle first writes LOW to the three outputs and then takes one
    distance reading, before any card, button or gas polling.  When the
    reading is not strictly between 14 and 20 the cycle goes on to the
    polling with nothing else done.  When it is, the close cycle runs first:
    a delay of 2000 ms, a distance sample every 500 ms until one is inside
    the band, the close output high for 10200 ms and low again, and only
    then the polling, whose inputs are all still unread.  While no sample is
    inside the band the cycle stays in that wait: the close output remains
    low and the polling does not begin. *)
Theorem loop_begins_with_checkClose fuel st :
  let value := distance (env st) (n_dist st) in
  let st1 := set_n_dist (S (n_dist st))
               (emit (DigitalWrite rc LOW) (emit (DigitalWrite motLow LOW)
                 (emit (DigitalWrite motHigh LOW) st))) in
  (clear value = true <-> 14 < value < 20) /\
  trace st1 = clear_events ++ trace st /\
  (clear value = false ->
   loop fuel st = (loop_poll fuel ;; loop_dispatch fuel) st1) /\
  (clear value = true ->
   forall n, (n < fuel)%nat ->
     (forall i, (i < n)%nat -> clear (distance (env st) (i + S (n_dist st))%nat) = false) ->
     clear (distance (env st) (n + S (n_dist st))%nat) = true ->
     exists st2, loop fuel st = (loop_poll fuel ;; loop_dispatch fuel) st2 /\
       trace st2 = close_events ++ wait_trace (samples st1 (S n)) ++
                   Delay 2000 :: clear_events ++ trace st /\
       n_dist st2 = (S n + S (n_dist st))%nat /\
       n_picc st2 = n_picc st /\ n_smoke st2 = n_smoke st /\
       n_userOpen st2 = n_userOpen st /\ n_wipeB st2 = n_wipeB st /\
       eeprom st2 = eeprom st /\ programMode st2 = programMode st) /\
  (clear value = true ->
   (forall i, (i < fuel)%nat -> clear (distance (env st) (i + S (n_dist st))%nat) = false) ->
   exists st', loop fuel st = (Timeout, st') /\
     trace st' = wait_trace (samples st1 fuel) ++ Delay 2000 :: clear_events ++ trace st /\
     level motLow (trace st') = LOW /\
     n_picc st' = n_picc st /\ n_smoke st' = n_smoke st /\
     n_userOpen st' = n_userOpen st /\ n_wipeB st' = n_wipeB st).
Proof.
  intros value st1. split; [|split; [|split; [|split]]].
  - unfold clear. rewrite andb_true_iff, !Z.ltb_lt. reflexivity.
  - reflexivity.
  - intros Hv. rewrite loop_checkClose. fold value. now rewrite Hv.
  - intros Hv n Hn Hblk Hclr.
    destruct (waiting_frame (S n) (emit (Delay 2000) st1)) as (_ & Hd & He & Ht).
    destruct (waiting_cursors (S n) (emit (Delay 2000) st1)) as (H1 & H2 & H3 & H4 & H5).
    eexists. split.
    + rewrite loop_checkClose. fold value. rewrite Hv. fold st1.
      unfold bind at 1. rewrite (closeDoor_cleared fuel st1 n Hn Hblk Hclr). reflexivity.
    + cbn [trace n_dist n_picc n_smoke n_userOpen n_wipeB eeprom programMode emit].
      rewrite Hd, He, Ht, H1, H2, H3, H4, H5. repeat split.
  - intros Hv Hblk.
    destruct (waiting_frame fuel (emit (Delay 2000) st1)) as (_ & _ & _ & Ht).
    destruct (waiting_cursors fuel (emit (Delay 2000) st1)) as (H1 & H2 & H3 & H4 & _).
    exists (waiting fuel (emit (Delay 2000) st1)). split.
    + rewrite loop_checkClose. fold value. rewrite Hv. fold st1.
      unfold bind at 1. now rewrite (closeDoor_blocked fuel st1 Hblk).
    + rewrite Ht, H1, H2, H3, H4. split; [reflexivity|]. split; [|repeat split].
      now rewrite level_wait_trace.
Qed.

Lemma loop_begins_with_checkClose_witness :
  (exists st2, loop 5 st_closing = (loop_poll 5 ;; loop_dispatch 5) st2 /\
     trace st2 = close_events ++ wait_trace [50; 50; 17] ++
                 Delay 2000 :: clear_events ++ trace st_closing /\
     n_dist st2 = 4%nat /\ n_picc st2 = 0%nat) /\
  (exists st', loop 2 st_closing = (Timeout, st') /\
     level motLow (trace st') = LOW /\ n_picc st' = 0%nat).
Proof.
  split.
  - pose proof (loop_begins_with_checkClose 5 st_closing) as H. cbv zeta in H.
    destruct H as (_ & _ & _ & H & _).
    destruct (H eq_refl 2%nat) as (st2 & E & Ht & Hd & Hp & _).
    + lia.
    + intros [|[|i]] Hi; [reflexivity|reflexivity|lia].
    + reflexivity.
    + exists st2. repeat split; assumption.
  - pose proof (loop_begins_with_checkClose 2 st_closing) as H. cbv zeta in H.
    destruct H as (_ & _ & _ & _ & H).
    destruct (H eq_refl) as (st' & E & _ & Hl & Hp & _).
    + intros [|[|i]] Hi; [reflexivity|reflexivity|lia].
    + exists st'. repeat split; assumption.
Defined.

(** C2 (amended).  The sketch has no capacity check and no StorageFull
    result.  On the 1024-byte EEPROM, for a store of at most 62 records and
    an id that none of its record slots holds, [writeID], given fuel for its
    lookup, returns, prints the success line, increments the count and
    writes the id to the slot after the last record, which lies inside the
    record region; no other byte changes. *)
Theorem writeID_appends_in_record_region fuel a st :
  eeprom_ok st -> 0 <= count_of st <= 62 -> count_of st < Z.of_nat fuel ->
  absent a st ->
  exists st', writeID fuel a st = (Ret tt, st') /\
    trace st' = Serial msg_added :: trace st /\
    count_of st' = count_of st + 1 /\
    slot (eeprom st') (count_of st + 1) = a /\
    6 <= 4 * count_of st + 6 /\ 4 * count_of st + 10 <= EEPROM_length /\
    (forall addr, 0 < addr ->
       ~ (4 * count_of st + 6 <= addr < 4 * count_of st + 10) ->
       peek (eeprom st') addr = peek (eeprom st) addr).
Proof.
  intros Hok Hc Hf Habs.
  assert (H : fst (findID fuel a st) = Ret false)
    by (apply findID_absent_false; [lia|exact Hf|exact Habs]).
  pose proof (findID_world fuel a st) as Hw.
  destruct (findID fuel a st) as [o st1] eqn:E. cbn [fst snd] in H, Hw. subst o.
  pose proof (same_world_eeprom _ _ Hw) as He.
  eexists. split; [apply (writeID_miss _ _ _ _ E)|].
  cbn [trace eeprom emit set_eeprom]. unfold count_of in *. cbn [eeprom emit set_eeprom].
  rewrite He. unfold EEPROM_length. split; [|split; [|split; [|split; [|split]]]]; try lia.
  - f_equal. now apply same_world_trace.
  - rewrite peek_written_count by exact Hok. apply uint8_small. lia.
  - unfold slot. rewrite uint8_small by lia. rewrite !peek_written by (auto; lia).
    destruct a as [a0 a1 a2 a3]. unfold card_get; cbn [c0 c1 c2 c3]. f_equal; bool_cases.
  - intros addr Ha Hn. rewrite peek_written by (auto; lia). bool_cases.
Qed.

Lemma writeID_appends_in_record_region_witness :
  exists st', writeID 5 card_A st_three = (Ret tt, st') /\
    trace st' = Serial msg_added :: trace st_three /\
    count_of st' = count_of st_three + 1 /\
    slot (eeprom st') (count_of st_three + 1) = card_A /\
    6 <= 4 * count_of st_three + 6 /\ 4 * count_of st_three + 10 <= EEPROM_length /\
    (forall addr, 0 < addr ->
       ~ (4 * count_of st_three + 6 <= addr < 4 * count_of st_three + 10) ->
       peek (eeprom st') addr = peek (eeprom st_three) addr).
Proof.
  apply (writeID_appends_in_record_region 5 card_A st_three).
  - vm_compute. reflexivity.
  - vm_compute. split; discriminate.
  - vm_compute. reflexivity.
  - intros j Hj. assert (Hc : count_of st_three = 3) by (vm_compute; reflexivity).
    rewrite Hc in Hj. assert (Hj' : j = 1 \/ j = 2 \/ j = 3) by lia.
    destruct Hj' as [-> | [-> | ->]]; vm_compute; discriminate.
Defined.

(** *** The door and the sensors *)

Lemma level_cons_other p e t : writes_pin p e = false -> level p (e :: t) = level p t.
Proof.
  destruct e as [q v| | |]; cbn [level writes_pin]; intros H; [|reflexivity..].
  now rewrite H.
Qed.

Lemma same_level_refl p t : same_level p t t.
Proof. reflexivity. Qed.

Lemma same_level_trans p t1 t2 t3 :
  same_level p t1 t2 -> same_level p t2 t3 -> same_level p t1 t3.
Proof. unfold same_level. congruence. Qed.

Lemma same_level_emit p e :
  writes_pin p e = false -> preserves trace (same_level p) (modify (emit e)).
Proof. intros H s. now apply level_cons_other. Qed.

Ltac spare p :=
  unfold digitalWrite, delay, Serial_print, Serial_printnum, ultrasonic_distanceRead;
  repeat first [ frame_step (same_level_refl p) (same_level_trans p)
               | apply same_level_emit; reflexivity ].

Lemma closeDoor_wait_spares p fuel : preserves trace (same_level p) (closeDoor_wait fuel).
Proof. induction fuel as [|f IH]; cbn [closeDoor_wait]; unfold timeout; spare p. Qed.

Lemma set_n_smoke_same st : set_n_smoke (n_smoke st) st = st.
Proof. now destruct st. Qed.

Lemma checkSmoke_loop_clear n : forall st,
  (forall k, (k < n)%nat -> smoke (env st) (k + n_smoke st)%nat <= 100) ->
  checkSmoke_loop n st = (Ret tt, set_n_smoke (n + n_smoke st) st).
Proof.
  induction n as [|n IH]; intros st H.
  - cbn [checkSmoke_loop Nat.add]. now rewrite set_n_smoke_same.
  - rewrite checkSmoke_loop_S.
    pose proof (H O ltac:(lia)) as H0. cbn [Nat.add] in H0.
    destruct (Z.ltb_spec 100 (smoke (env st) (n_smoke st))) as [E|_]; [lia|].
    rewrite IH.
    + unfold set_n_smoke. cbn. repeat f_equal. lia.
    + intros k Hk. cbn [env set_n_smoke n_smoke].
      replace (k + S (n_smoke st))%nat with (S k + n_smoke st)%nat by lia. apply H. lia.
Qed.

Lemma samples_cases (f : nat -> Z) n :
  (forall k, (k < n)%nat -> f k <= 100) \/ (exists k, (k < n)%nat /\ 100 < f k).
Proof.
  induction n as [|n [IH|(k & Hk & E)]].
  - left. intros k Hk. lia.
  - destruct (Z.lt_ge_cases 100 (f n)) as [E|E].
    + right. exists n. split; [lia|exact E].
    + left. intros k Hk. destruct (Nat.eq_dec k n) as [->|Hn]; [lia|apply IH; lia].
  - right. exists k. split; [lia|exact E].
Qed.

(** X13.  The open cycle always returns; it holds the open output high for
    one delay of 10000 ms between two delays of 2000 ms and leaves it low;
    it writes neither the close output nor the relay nor the EEPROM. *)
Theorem funopenDoor_pulses_open_output st :
  exists st', funopenDoor st = (Ret tt, st') /\
    trace st' = open_events ++ trace st /\
    level motHigh (trace st') = LOW /\
    level motLow (trace st') = level motLow (trace st) /\
    level rc (trace st') = level rc (trace st) /\
    eeprom st' = eeprom st /\ programMode st' = programMode st.
Proof. eexists. split; [reflexivity|]. repeat split. Qed.

(** X14.  A safety poll takes four gas samples.  It stops in the alarm
    exactly when one of the four is above 100, and returns exactly when all
    four are at most 100; when it returns it has consumed the four samples
    and done nothing else. *)
Theorem checkSmoke_alarm_iff_sample_above_threshold st :
  (fst (checkSmoke st) = Halt <->
   exists k, (k < 4)%nat /\ 100 < smoke (env st) (k + n_smoke st)%nat) /\
  (fst (checkSmoke st) = Ret tt <->
   forall k, (k < 4)%nat -> smoke (env st) (k + n_smoke st)%nat <= 100) /\
  (fst (checkSmoke st) = Ret tt -> snd (checkSmoke st) = set_n_smoke (4 + n_smoke st) st).
Proof.
  unfold checkSmoke.
  destruct (samples_cases (fun k => smoke (env st) (k + n_smoke st)%nat) 4) as [H|(k & Hk & E)].
  - rewrite (checkSmoke_loop_clear 4 st H). cbn [fst snd]. split; [|split].
    + split; [discriminate|]. intros (k & Hk & E). specialize (H k Hk). lia.
    + split; [intros _; exact H|reflexivity].
    + reflexivity.
  - destruct (checkSmoke_loop_trips 4 st k Hk E) as (k' & _ & E').
    rewrite E'. cbn [fst snd]. split; [|split].
    + split; [intros _; exists k; now split|reflexivity].
    + split; [discriminate|]. intros H. specialize (H k Hk). lia.
    + discriminate.
Qed.

(** X15.  The close cycle never writes the open output or the relay,
    however it ends, and never writes the EEPROM. *)
Theorem closeDoor_spares_open_output_and_relay fuel st :
  level motHigh (trace (snd (closeDoor fuel st))) = level motHigh (trace st) /\
  level rc (trace (snd (closeDoor fuel st))) = level rc (trace st) /\
  eeprom (snd (closeDoor fuel st)) = eeprom st.
Proof.
  split; [|split].
  - assert (H : preserves trace (same_level motHigh) (closeDoor fuel)).
    { pose proof (closeDoor_wait_spares motHigh). unfold closeDoor. spare motHigh. }
    apply H.
  - assert (H : preserves trace (same_level rc) (closeDoor fuel)).
    { pose proof (closeDoor_wait_spares rc). unfold closeDoor. spare rc. }
    apply H.
  - symmetry. apply (eeprom_closeDoor fuel st).
Qed.

(** X16.  A poll of the reader takes one answer.  With no card it returns 0
    and changes nothing else; with a card it returns 1, [readCard] holds the
    card's four bytes whatever it held before, and the header, the four
    bytes and an empty line are printed. *)
Theorem getID_reads_card st :
  match picc (env st) (n_picc st) with
  | None => getID st = (Ret 0, set_n_picc (S (n_picc st)) st)
  | Some uid =>
      getID st = (Ret 1, emit (Serial EmptyString) (emit (SerialNum (c3 uid))
                   (emit (SerialNum (c2 uid)) (emit (SerialNum (c1 uid))
                   (emit (SerialNum (c0 uid)) (emit (Serial "Scanned PICC's UID:")
                   (set_readCard uid (set_n_picc (S (n_picc st)) st)))))))) /\
      readCard (snd (getID st)) = uid /\
      trace (snd (getID st)) = uid_events uid ++ trace st
  end.
Proof.
  unfold getID, bind, mfrc522_read.
  destruct (picc (env st) (n_picc st)) as [[u0 u1 u2 u3]|]; [|reflexivity].
  repeat split.
Qed.

(** *** The dispatch of a scanned card *)

Lemma isMaster_eq a st :
  isMaster a st =
  (Ret (checkTwo_result a (masterCard st) (matchF st)),
   set_matchF (checkTwo_result a (masterCard st) (matchF st)) st).
Proof.
  unfold isMaster. unfold bind at 1, get at 1. unfold bind. rewrite checkTwo_eq.
  destruct (checkTwo_result _ _ _); reflexivity.
Qed.

Lemma checkTwo_result_nonzero a b m :
  card_get a 0 <> 0 -> checkTwo_result a b m = card_eqb a b.
Proof. intros H. unfold checkTwo_result. apply Z.eqb_neq in H. now rewrite H. Qed.

Lemma card_eqb_neq a b : a <> b -> card_eqb a b = false.
Proof.
  intros H. destruct (card_eqb a b) eqn:E; [|reflexivity].
  apply card_eqb_eq in E. contradiction.
Qed.

Lemma isMaster_other a st :
  card_get a 0 <> 0 -> a <> masterCard st ->
  isMaster a st = (Ret false, set_matchF false st).
Proof.
  intros Ha Hne. rewrite isMaster_eq, checkTwo_result_nonzero by exact Ha.
  now rewrite card_eqb_neq.
Qed.


Lemma findID_present fuel a j st st0 :
  eeprom st = eeprom st0 ->
  count_of st0 <= 254 -> card_get a 0 <> 0 -> first_at a j st0 -> j - 1 < Z.of_nat fuel ->
  (exists st', findID fuel a st = (Ret true, st') /\ same_world st st') /\
  (exists st', findIDSLOT fuel a st = (Ret j, st')).
Proof.
  intros He Hc Ha (Hj & Ej & Hn) Hf. unfold count_of in *. rewrite <- He in *.
  destruct (findID_first_found fuel a st j Hc Ha Hj Ej Hn Hf) as [H1 H2].
  pose proof (findID_world fuel a st) as Hw.
  destruct (findID fuel a st) as [o st']. destruct (findIDSLOT fuel a st) as [o2 st2].
  cbn [fst snd] in *. subst o o2. split; eexists; eauto.
Qed.

Ltac enter_dispatch Hpm :=
  unfold loop_dispatch; unfold bind at 1, get at 1; unfold bind at 1, get at 1;
  rewrite Hpm.

(** X17.  In Program mode the scan of the master card (first byte not zero)
    ends Program mode: three lines are printed, the EEPROM is not written
    and no pin is written. *)
Theorem master_scan_exits_program fuel st :
  programMode st = true -> readCard st = masterCard st ->
  card_get (masterCard st) 0 <> 0 ->
  exists st', loop_dispatch fuel st = (Ret tt, st') /\
    programMode st' = false /\ eeprom st' = eeprom st /\
    trace st' = bye_events ++ trace st.
Proof.
  intros Hpm Hrc Hm. eexists. split.
  - enter_dispatch Hpm. rewrite Hrc.
    rewrite (bind_Ret _ _ _ _ _ (isMaster_eq _ _)).
    rewrite checkTwo_result_nonzero, card_eqb_refl by exact Hm. reflexivity.
  - repeat split.
Qed.

Lemma master_scan_exits_program_witness :
  let st := set_programMode true (set_readCard card_M st_three) in
  exists st', loop_dispatch 5 st = (Ret tt, st') /\
    programMode st' = false /\ eeprom st' = eeprom st /\
    trace st' = bye_events ++ trace st.
Proof.
  apply (master_scan_exits_program 5 (set_programMode true (set_readCard card_M st_three)));
    [reflexivity|reflexivity|vm_compute; discriminate].
Defined.



(** X19.  In Normal mode the scan of a card (first byte not zero) that is
    not the master card and is in the store grants access: the welcome line,
    the relay high, the open cycle, the relay low, a delay of 10000 ms, and
    then the close cycle.  The EEPROM is not written, the mode stays Normal
    and the relay is low however the close cycle ends. *)
Theorem known_card_granted fuel st j :
  programMode st = false -> card_get (readCard st) 0 <> 0 ->
  readCard st <> masterCard st ->
  count_of st <= 254 -> first_at (readCard st) j st -> j - 1 < Z.of_nat fuel ->
  exists s, loop_dispatch fuel st = closeDoor fuel s /\
    trace s = grant_events ++ trace st /\
    eeprom (snd (loop_dispatch fuel st)) = eeprom st /\
    programMode (snd (loop_dispatch fuel st)) = false /\
    level rc (trace (snd (loop_dispatch fuel st))) = LOW.
Proof.
  intros Hpm Ha Hne Hc Hj Hf.
  destruct (findID_present fuel (readCard st) j (set_matchF false st) st eq_refl Hc Ha Hj Hf)
    as [(s2 & E2 & Hw) _].
  destruct Hw as (He & Hp & _ & _ & _ & _ & _ & _ & _ & _ & _ & Ht).
  cbn [programMode eeprom trace set_matchF] in He, Hp, Ht.
  set (s := emit (Delay 10000) (emit (DigitalWrite rc LOW)
             (emit (Delay 2000) (emit (DigitalWrite motHigh LOW) (emit (Delay 10000)
             (emit (DigitalWrite motHigh HIGH) (emit (Delay 2000)
             (emit (DigitalWrite rc HIGH) (emit (Serial "Welcome, You shall pass") s2))))))))).
  assert (E : loop_dispatch fuel st = closeDoor fuel s).
  { enter_dispatch Hpm.
    rewrite (bind_Ret _ _ _ _ _ (isMaster_other _ _ Ha Hne)).
    now rewrite (bind_Ret _ _ _ _ _ E2). }
  exists s. split; [exact E|]. rewrite E. split; [|split; [|split]].
  - unfold s. cbn [trace emit]. now rewrite Ht.
  - rewrite <- He. symmetry. apply (eeprom_closeDoor fuel s).
  - rewrite <- Hpm, <- Hp.
    assert (H : preserves programMode eq (closeDoor fuel)).
    { assert (Hwait : forall f, preserves programMode eq (closeDoor_wait f)).
      { induction f as [|f IH]; cbn [closeDoor_wait];
          frame (@eq_refl bool) (@eq_trans bool). }
      unfold closeDoor. frame (@eq_refl bool) (@eq_trans bool). }
    symmetry. apply (H s).
  - assert (H : preserves trace (same_level rc) (closeDoor fuel)).
    { pose proof (closeDoor_wait_spares rc). unfold closeDoor. spare rc. }
    rewrite (H s). reflexivity.
Qed.

Lemma known_card_granted_witness :
  let st := set_readCard (user 2) st_three in
  exists s, loop_dispatch 5 st = closeDoor 5 s /\
    trace s = grant_events ++ trace st /\
    eeprom (snd (loop_dispatch 5 st)) = eeprom st /\
    programMode (snd (loop_dispatch 5 st)) = false /\
    level rc (trace (snd (loop_dispatch 5 st))) = LOW.
Proof.
  apply (known_card_granted 5 (set_readCard (user 2) st_three) 2).
  - reflexivity.
  - vm_compute. discriminate.
  - vm_compute. discriminate.
  - vm_compute. discriminate.
  - split; [vm_compute; split; discriminate|]. split; [vm_compute; reflexivity|].
    intros k Hk. assert (k = 1) as -> by lia. vm_compute. discriminate.
  - vm_compute. reflexivity.
Defined.



(** X21.  In Program mode the scan of a card (first byte not zero) that is
    not the master card and whose first slot in the store is [j] removes it:
    the EEPROM is what [deleteID] makes of it at slot [j], the mode stays
    Program, and no pin is written. *)
Theorem program_mode_removes_known_card fuel st j :
  programMode st = true -> card_get (readCard st) 0 <> 0 ->
  readCard st <> masterCard st ->
  count_of st <= 254 -> first_at (readCard st) j st -> j - 1 < Z.of_nat fuel ->
  exists st', loop_dispatch fuel st = (Ret tt, st') /\
    programMode st' = true /\ eeprom st' = deleted (count_of st) (eeprom st) j /\
    trace st' = [Serial msg_scan; Serial msg_rule; Serial msg_removed;
                 Serial "I know this PICC, removing..."] ++ trace st.
Proof.
  intros Hpm Ha Hne Hc Hj Hf.
  destruct (findID_present fuel (readCard st) j (set_matchF false st) st eq_refl Hc Ha Hj Hf)
    as [(s2 & E2 & Hw) _].
  destruct Hw as (He & Hp & _ & _ & _ & _ & _ & _ & _ & _ & _ & Ht).
  cbn [programMode eeprom trace set_matchF] in He, Hp, Ht.
  set (s2' := emit (Serial "I know this PICC, removing...") s2).
  assert (He' : eeprom s2' = eeprom st) by exact He.
  destruct (findID_present fuel (readCard st) j s2' st He' Hc Ha Hj Hf) as [_ (s3 & E3)].
  assert (Hc' : count_of s2' <= 254) by (unfold count_of; now rewrite He').
  destruct (deleteID_at fuel (readCard st) s2' j s3 Hc' E3) as (_ & s4 & Hw4 & E4).
  destruct Hw4 as (He4 & Hp4 & _ & _ & _ & _ & _ & _ & _ & _ & _ & Ht4).
  eexists. split.
  - enter_dispatch Hpm.
    rewrite (bind_Ret _ _ _ _ _ (isMaster_other _ _ Ha Hne)).
    rewrite (bind_Ret _ _ _ _ _ E2).
    unfold bind at 1, Serial_print at 1, modify at 1. fold s2'.
    rewrite (bind_Ret _ _ _ _ _ E4). reflexivity.
  - cbn [programMode eeprom trace emit set_eeprom app].
    unfold count_of in *. rewrite He', Hp4, Ht4. unfold s2'. cbn [programMode trace emit].
    rewrite Hp, Ht. repeat split. exact Hpm.
Qed.

Lemma program_mode_removes_known_card_witness :
  let st := set_programMode true (set_readCard (user 2) st_three) in
  exists st', loop_dispatch 5 st = (Ret tt, st') /\
    programMode st' = true /\ eeprom st' = deleted (count_of st) (eeprom st) 2 /\
    trace st' = [Serial msg_scan; Serial msg_rule; Serial msg_removed;
                 Serial "I know this PICC, removing..."] ++ trace st.
Proof.
  apply (program_mode_removes_known_card 5
           (set_programMode true (set_readCard (user 2) st_three)) 2).
  - reflexivity.
  - vm_compute. discriminate.
  - vm_compute. discriminate.
  - vm_compute. discriminate.
  - split; [vm_compute; split; discriminate|]. split; [vm_compute; reflexivity|].
    intros k Hk. assert (k = 1) as -> by lia. vm_compute. discriminate.
  - vm_compute. reflexivity.
Defined.

(** *** The polling step *)

Lemma bind_ret {A B} (a : A) (f : A -> M B) s : bind (ret a) f s = f a s.
Proof. reflexivity. Qed.

Lemma digitalRead_userOpen s :
  digitalRead userOpen s =
  (Ret (userOpen_level (env s) (n_userOpen s)), set_n_userOpen (S (n_userOpen s)) s).
Proof. reflexivity. Qed.

Lemma digitalRead_wipeB s :
  digitalRead wipeB s =
  (Ret (wipeB_level (env s) (n_wipeB s)), set_n_wipeB (S (n_wipeB s)) s).
Proof. reflexivity. Qed.

Lemma getID_eq st : getID st = (Ret (polled_successRead st), polled st).
Proof.
  unfold getID, bind, mfrc522_read, polled_successRead, polled.
  destruct (picc (env st) (n_picc st)) as [[u0 u1 u2 u3]|]; reflexivity.
Qed.

(** The reader poll and a safety poll in clear air. *)
Lemma poll_sensors st :
  air_clear st ->
  exists s, (forall fuel, loop_poll (S fuel) st = poll_buttons fuel s) /\
    env s = env st /\ n_userOpen s = n_userOpen st /\ n_wipeB s = n_wipeB st /\
    n_dist s = n_dist st /\ eeprom s = eeprom st /\ programMode s = programMode st /\
    masterCard s = masterCard st /\
    successRead s = polled_successRead st /\ readCard s = polled_readCard st /\
    trace s = polled_trace st.
Proof.
  intros Hair.
  assert (Hair' : air_clear (set_successRead (polled_successRead st) (polled st))).
  { intros k Hk. unfold polled. destruct (picc (env st) (n_picc st)); apply Hair, Hk. }
  exists (set_n_smoke (4 + n_smoke (set_successRead (polled_successRead st) (polled st)))
            (set_successRead (polled_successRead st) (polled st))).
  split.
  - intros fuel. cbn [loop_poll].
    rewrite (bind_Ret _ _ _ _ _ (getID_eq st)). unfold bind at 1, modify at 1.
    unfold checkSmoke. rewrite (bind_Ret _ _ _ _ _ (checkSmoke_loop_clear 4 _ Hair')).
    reflexivity.
  - unfold polled, polled_readCard, polled_trace.
    destruct (picc (env st) (n_picc st)) as [[u0 u1 u2 u3]|]; repeat split.
Qed.

(** X22.  The runtime wipe.  In clear air with the open button released,
    when the wipe button is down at the poll and still down after the delay
    of 10000 ms, the polling step writes 0 to EEPROM byte 1, and to no other
    byte, prints the restart line and stops for good: nothing after it runs. *)
Theorem runtime_wipe_clears_flag_and_halts fuel st :
  air_clear st ->
  userOpen_level (env st) (n_userOpen st) = HIGH ->
  wipeB_level (env st) (n_wipeB st) = LOW ->
  wipeB_level (env st) (S (n_wipeB st)) = LOW ->
  exists st', loop_poll (S fuel) st = (Halt, st') /\
    eeprom st' = poke (eeprom st) 1 0 /\
    trace st' = wipe_events ++ polled_trace st /\
    forall B (rest : unit -> M B), bind (loop_poll (S fuel)) rest st = (Halt, st').
Proof.
  intros Hair Hu Hw1 Hw2.
  destruct (poll_sensors st Hair) as (s & E & Henv & Hnu & Hnw & _ & He & _ & _ & _ & _ & Ht).
  assert (Ep : exists st', loop_poll (S fuel) st = (Halt, st') /\
             eeprom st' = poke (eeprom st) 1 0 /\ trace st' = wipe_events ++ polled_trace st).
  { eexists. split.
    - rewrite E. unfold poll_buttons.
      rewrite (bind_Ret _ _ _ _ _ (digitalRead_userOpen s)).
      rewrite Henv, Hnu, Hu. unfold HIGH, LOW. cbn [Bool.eqb when]. rewrite bind_ret.
      rewrite (bind_Ret _ _ _ _ _ (digitalRead_wipeB _)).
      cbn [env n_wipeB set_n_userOpen]. rewrite Henv, Hnw. unfold LOW in Hw1. rewrite Hw1.
      cbn [Bool.eqb when].
      unfold bind at 1. unfold bind at 1, Serial_print at 1, modify at 1.
      unfold bind at 1, Serial_print at 1, modify at 1.
      unfold bind at 1, delay at 1, modify at 1.
      rewrite (bind_Ret _ _ _ _ _ (digitalRead_wipeB _)).
      cbn [env n_wipeB set_n_userOpen set_n_wipeB emit]. rewrite Henv.
      unfold LOW in Hw2. rewrite Hw2. cbn [Bool.eqb when].
      reflexivity.
    - cbn [eeprom trace emit set_eeprom set_n_wipeB set_n_userOpen].
      rewrite He, Ht. split; reflexivity. }
  destruct Ep as (st' & Ep & He' & Ht').
  exists st'. repeat split; auto. intros B rest. now apply bind_Halt.
Qed.

Lemma runtime_wipe_clears_flag_and_halts_witness :
  let st := power_on (provisioned card_M)
              (mkInputs (fun _ => None) (fun _ => 50) (fun _ => 10)
                 (fun _ => HIGH) (fun _ => LOW)) in
  exists st', loop_poll (S 5) st = (Halt, st') /\
    eeprom st' = poke (eeprom st) 1 0 /\
    trace st' = wipe_events ++ polled_trace st /\
    forall B (rest : unit -> M B), bind (loop_poll (S 5)) rest st = (Halt, st').
Proof.
  apply (runtime_wipe_clears_flag_and_halts 5
           (power_on (provisioned card_M)
              (mkInputs (fun _ => None) (fun _ => 50) (fun _ => 10)
                 (fun _ => HIGH) (fun _ => LOW)))).
  - intros k Hk. vm_compute. discriminate.
  - reflexivity.
  - reflexivity.
  - reflexivity.
Defined.

(** X23.  The runtime wipe, cancelled.  When the wipe button is down at the
    poll but released after the delay, nothing is written to the EEPROM; if
    a card was read at this poll the polling step returns with the card in
    [readCard]. *)
Theorem runtime_wipe_cancelled_changes_nothing fuel st uid :
  air_clear st ->
  picc (env st) (n_picc st) = Some uid ->
  userOpen_level (env st) (n_userOpen st) = HIGH ->
  wipeB_level (env st) (n_wipeB st) = LOW ->
  wipeB_level (env st) (S (n_wipeB st)) = HIGH ->
  exists st', loop_poll (S fuel) st = (Ret tt, st') /\
    eeprom st' = eeprom st /\ readCard st' = uid /\
    trace st' = wipe_cancelled_events ++ uid_events uid ++ trace st.
Proof.
  intros Hair Hp Hu Hw1 Hw2.
  destruct (poll_sensors st Hair) as (s & E & Henv & Hnu & Hnw & _ & He & _ & _ & Hsr & Hrc & Ht).
  unfold polled_successRead in Hsr. unfold polled_readCard in Hrc. unfold polled_trace in Ht.
  rewrite Hp in Hsr, Hrc, Ht.
  eexists. split.
  - rewrite E. unfold poll_buttons.
    rewrite (bind_Ret _ _ _ _ _ (digitalRead_userOpen s)).
    rewrite Henv, Hnu, Hu. unfold HIGH, LOW. cbn [Bool.eqb when]. rewrite bind_ret.
    rewrite (bind_Ret _ _ _ _ _ (digitalRead_wipeB _)).
    cbn [env n_wipeB set_n_userOpen]. rewrite Henv, Hnw. unfold LOW in Hw1. rewrite Hw1.
    cbn [Bool.eqb when].
    unfold bind at 1. unfold bind at 1, Serial_print at 1, modify at 1.
    unfold bind at 1, Serial_print at 1, modify at 1.
    unfold bind at 1, delay at 1, modify at 1.
    rewrite (bind_Ret _ _ _ _ _ (digitalRead_wipeB _)).
    cbn [env n_wipeB set_n_userOpen set_n_wipeB emit]. rewrite Henv.
    unfold HIGH in Hw2. rewrite Hw2. cbn [Bool.eqb when]. unfold ret at 1.
    unfold bind at 1, get at 1.
    cbn [successRead set_n_wipeB set_n_userOpen emit]. rewrite Hsr.
    reflexivity.
  - cbn [eeprom readCard trace emit set_n_wipeB set_n_userOpen].
    rewrite He, Hrc, Ht. repeat split.
Qed.

Lemma runtime_wipe_cancelled_changes_nothing_witness :
  let st := power_on (provisioned card_M)
              (mkInputs (fun _ => Some card_A) (fun _ => 50) (fun _ => 10)
                 (fun _ => HIGH) (fun n => if Nat.eqb n 0 then LOW else HIGH)) in
  exists st', loop_poll (S 5) st = (Ret tt, st') /\
    eeprom st' = eeprom st /\ readCard st' = card_A /\
    trace st' = wipe_cancelled_events ++ uid_events card_A ++ trace st.
Proof.
  apply (runtime_wipe_cancelled_changes_nothing 5
           (power_on (provisioned card_M)
              (mkInputs (fun _ => Some card_A) (fun _ => 50) (fun _ => 10)
                 (fun _ => HIGH) (fun n => if Nat.eqb n 0 then LOW else HIGH)))).
  - intros k Hk. vm_compute. discriminate.
  - reflexivity.
  - reflexivity.
  - reflexivity.
  - reflexivity.
Defined.

Lemma open_then_close {B} fuel (k : unit -> M B) s :
  bind (Serial_print "Button press open triggered." ;; funopenDoor ;; delay 10000 ;;
        closeDoor fuel) k s =
  bind (closeDoor fuel) k
    (emit (Delay 10000) (emit (Delay 2000) (emit (DigitalWrite motHigh LOW)
       (emit (Delay 10000) (emit (DigitalWrite motHigh HIGH) (emit (Delay 2000)
          (emit (Serial "Button press open triggered.") s))))))).
Proof. reflexivity. Qed.

(** X24.  The open button.  In clear air, with the open button down, the
    doorway clear at the first reading and the wipe button released, a poll
    that read a card runs the open cycle, waits 10000 ms, runs the close
    cycle with one distance sample and returns; the EEPROM is not written. *)
Theorem open_button_cycles_the_door fuel st uid :
  air_clear st ->
  picc (env st) (n_picc st) = Some uid ->
  userOpen_level (env st) (n_userOpen st) = LOW ->
  clear (distance (env st) (n_dist st)) = true ->
  wipeB_level (env st) (n_wipeB st) = HIGH ->
  exists st', loop_poll (S (S fuel)) st = (Ret tt, st') /\
    eeprom st' = eeprom st /\ readCard st' = uid /\
    trace st' = close_events ++ wait_trace [distance (env st) (n_dist st)] ++
                [Delay 2000; Delay 10000] ++ open_events ++
                [Serial "Button press open triggered."] ++ uid_events uid ++ trace st.
Proof.
  intros Hair Hp Hu Hd Hw.
  destruct (poll_sensors st Hair) as (s & E & Henv & Hnu & Hnw & Hnd & He & _ & _ & Hsr & Hrc & Ht).
  unfold polled_successRead in Hsr. unfold polled_readCard in Hrc. unfold polled_trace in Ht.
  rewrite Hp in Hsr, Hrc, Ht.
  set (s1 := set_n_userOpen (S (n_userOpen s)) s).
  set (s2 := emit (Delay 10000) (emit (Delay 2000) (emit (DigitalWrite motHigh LOW)
               (emit (Delay 10000) (emit (DigitalWrite motHigh HIGH) (emit (Delay 2000)
                 (emit (Serial "Button press open triggered.") s1))))))).
  assert (Hc : closeDoor (S fuel) s2 =
               (Ret tt, emit (DigitalWrite motLow LOW) (emit (Delay 10200)
                  (emit (DigitalWrite motLow HIGH) (waiting 1 (emit (Delay 2000) s2)))))).
  { apply (closeDoor_cleared (S fuel) s2 0); [lia|intros i Hi; lia|].
    cbn [Nat.add]. change (env s2) with (env s). change (n_dist s2) with (n_dist s).
    now rewrite Henv, Hnd. }
  eexists. split.
  - rewrite E. unfold poll_buttons.
    rewrite (bind_Ret _ _ _ _ _ (digitalRead_userOpen s)). fold s1.
    rewrite Henv, Hnu. unfold LOW in Hu. rewrite Hu. unfold LOW. cbn [Bool.eqb when].
    rewrite (open_then_close (S fuel) _ s1). fold s2.
    rewrite (bind_Ret _ _ _ _ _ Hc).
    rewrite (bind_Ret _ _ _ _ _ (digitalRead_wipeB _)).
    change (wipeB_level (env s) (n_wipeB s) ) with (wipeB_level (env s) (n_wipeB s)).
    cbn [waiting env n_wipeB n_dist set_n_dist set_n_userOpen emit s2 s1].
    rewrite Henv, Hnw.
    unfold HIGH in Hw. rewrite Hw. cbn [Bool.eqb when]. rewrite bind_ret.
    unfold bind at 1, get at 1. unfold s2, s1.
    cbn [successRead waiting set_n_wipeB set_n_dist set_n_userOpen emit]. rewrite Hsr.
    reflexivity.
  - unfold s2, s1.
    cbn [eeprom readCard trace env n_dist waiting emit set_n_wipeB set_n_dist set_n_userOpen].
    rewrite ?He, ?Hrc, ?Ht, ?Hnd, ?Henv. repeat split.
Qed.

Lemma open_button_cycles_the_door_witness :
  let st := power_on (provisioned card_M)
              (mkInputs (fun _ => Some card_A) (fun _ => 17) (fun _ => 10)
                 (fun _ => LOW) (fun _ => HIGH)) in
  exists st', loop_poll (S (S 5)) st = (Ret tt, st') /\
    eeprom st' = eeprom st /\ readCard st' = card_A /\
    trace st' = close_events ++ wait_trace [distance (env st) (n_dist st)] ++
                [Delay 2000; Delay 10000] ++ open_events ++
                [Serial "Button press open triggered."] ++ uid_events card_A ++ trace st.
Proof.
  apply (open_button_cycles_the_door 5
           (power_on (provisioned card_M)
              (mkInputs (fun _ => Some card_A) (fun _ => 17) (fun _ => 10)
                 (fun _ => LOW) (fun _ => HIGH)))).
  - intros k Hk. vm_compute. discriminate.
  - reflexivity.
  - reflexivity.
  - reflexivity.
  - reflexivity.
Defined.

(** *** Start-up *)

Lemma set_eeprom_same st : set_eeprom (eeprom st) st = st.
Proof. now destruct st. Qed.

Lemma setup_wipe_eq fuel : forall x st,
  0 <= x < 256 ->
  setup_wipe fuel x st = (Timeout, set_eeprom (wiped fuel x (eeprom st)) st).
Proof.
  induction fuel as [|f IH]; intros x st Hx.
  - cbn [setup_wipe wiped]. now rewrite set_eeprom_same.
  - cbn [setup_wipe wiped].
    destruct (Z.ltb_spec x EEPROM_length) as [_|E]; [|unfold EEPROM_length in E; lia].
    unfold bind at 1, EEPROM_read at 1, get at 1.
    destruct (peek (eeprom st) x =? 0); cbn [negb when].
    + rewrite bind_ret. apply IH. apply uint8_range.
    + unfold bind at 1, EEPROM_write at 1, modify at 1.
      rewrite IH by apply uint8_range. reflexivity.
Qed.

Lemma length_wiped n : forall x e, List.length (wiped n x e) = List.length e.
Proof.
  induction n as [|n IH]; intros x e; cbn [wiped]; [reflexivity|].
  rewrite IH. destruct (peek e x =? 0); [reflexivity|apply length_poke].
Qed.

Lemma wiped_beyond n : forall x e i,
  0 <= x < 256 -> 256 <= i -> peek (wiped n x e) i = peek e i.
Proof.
  induction n as [|n IH]; intros x e i Hx Hi; cbn [wiped]; [reflexivity|].
  rewrite IH by (try apply uint8_range; lia).
  destruct (peek e x =? 0); [reflexivity|]. apply peek_poke_other; lia.
Qed.

Lemma wiped_keeps_zero n : forall x e i,
  0 <= x -> 0 <= i -> peek e i = 0 -> peek (wiped n x e) i = 0.
Proof.
  induction n as [|n IH]; intros x e i Hx Hi H; cbn [wiped]; [exact H|].
  apply IH; [pose proof (uint8_range (x + 1)); lia|exact Hi|].
  destruct (Z.eqb_spec (peek e x) 0) as [E|E]; [exact H|].
  destruct (Z.eq_dec i x) as [->|Hne]; [|rewrite peek_poke_other by lia; exact H].
  contradiction.
Qed.

Lemma wiped_reaches n : forall x e i,
  Z.of_nat (List.length e) = EEPROM_length ->
  0 <= x < 256 -> 0 <= i < 256 -> ahead x i < Z.of_nat n ->
  peek (wiped n x e) i = 0.
Proof.
  unfold EEPROM_length.
  induction n as [|n IH]; intros x e i Hl Hx Hi Hn.
  - unfold ahead in Hn. destruct (Z.leb_spec x i); lia.
  - cbn [wiped]. destruct (Z.eq_dec i x) as [->|Hne].
    + apply wiped_keeps_zero; [pose proof (uint8_range (x + 1)); lia|lia|].
      destruct (Z.eqb_spec (peek e x) 0) as [E|E]; [exact E|].
      apply peek_poke_same. lia.
    + apply IH.
      * destruct (peek e x =? 0); [exact Hl|now rewrite length_poke].
      * apply uint8_range.
      * exact Hi.
      * unfold ahead in *. unfold uint8.
        destruct (Z.eq_dec x 255) as [->|Hx'].
        -- change ((255 + 1) mod 256) with 0.
           destruct (Z.leb_spec 0 i), (Z.leb_spec 255 i); lia.
        -- rewrite Z.mod_small by lia.
           destruct (Z.leb_spec (x + 1) i), (Z.leb_spec x i); lia.
Qed.

Lemma ShowReaderDetails_alive v st :
  reader_alive v ->
  exists t, ShowReaderDetails v st =
            (Ret tt, emit (Serial EmptyString) (emit (Serial t)
               (emit (SerialNum v) (emit (Serial "MFRC522 Software Version: 0x") st)))).
Proof.
  intros [H0 H255]. unfold ShowReaderDetails.
  apply Z.eqb_neq in H0. apply Z.eqb_neq in H255. rewrite H0, H255. cbn [orb when].
  destruct (v =? 145); [|destruct (v =? 146)]; eexists; reflexivity.
Qed.

(** X26.  [ShowReaderDetails] stops the sketch exactly when the version byte
    is 0x00 or 0xFF; it then has printed the halt line, and [setup] stops
    with it before it reads a button or a card or writes the EEPROM. *)
Theorem ShowReaderDetails_halts_iff_reader_dead fuel v st :
  (fst (ShowReaderDetails v st) = Halt <-> v = 0 \/ v = 255) /\
  (fst (ShowReaderDetails v st) = Ret tt <-> reader_alive v) /\
  (v = 0 \/ v = 255 ->
   fst (setup fuel v st) = Halt /\
   hd (Delay 0) (trace (snd (setup fuel v st))) = Serial msg_halted /\
   eeprom (snd (setup fuel v st)) = eeprom st /\
   n_wipeB (snd (setup fuel v st)) = n_wipeB st /\
   n_picc (snd (setup fuel v st)) = n_picc st).
Proof.
  assert (Hdead : v = 0 \/ v = 255 ->
            exists s, ShowReaderDetails v st = (Halt, emit (Serial msg_halted) s) /\
                      eeprom s = eeprom st /\ n_wipeB s = n_wipeB st /\ n_picc s = n_picc st).
  { intros [-> | ->]; eexists; (split; [reflexivity|repeat split]). }
  split; [|split].
  - split; [|intros H; destruct (Hdead H) as (s & E & _); now rewrite E].
    intros H. destruct (Z.eq_dec v 0) as [E0|E0]; [now left|].
    destruct (Z.eq_dec v 255) as [E1|E1]; [now right|].
    destruct (ShowReaderDetails_alive v st (conj E0 E1)) as (t & E).
    rewrite E in H. discriminate.
  - split.
    + intros H. split; intros ->; destruct (Hdead ltac:(auto)) as (s & E & _);
        rewrite E in H; discriminate.
    + intros Ha. destruct (ShowReaderDetails_alive v st Ha) as (t & E). now rewrite E.
  - intros H.
    assert (Hdead' : exists s, ShowReaderDetails v
                       (emit (Serial "Access Control Example v0.1") st) =
                     (Halt, emit (Serial msg_halted) s) /\
                     eeprom s = eeprom st /\ n_wipeB s = n_wipeB st /\ n_picc s = n_picc st).
    { destruct H as [-> | ->]; eexists; (split; [reflexivity|repeat split]). }
    destruct Hdead' as (s & E & He & Hw & Hp).
    assert (Es : setup fuel v st = (Halt, emit (Serial msg_halted) s)).
    { unfold setup. unfold bind at 1, Serial_print at 1, modify at 1.
      now apply bind_Halt. }
    rewrite Es. cbn [fst snd trace eeprom n_wipeB n_picc emit hd]. auto.
Qed.

Lemma bind_Timeout {A B} (m : M A) (f : A -> M B) s s' :
  m s = (Timeout, s') -> bind m f s = (Timeout, s').
Proof. intros H. unfold bind. now rewrite H. Qed.

Lemma setup_eq fuel v :
  setup fuel v =
  (Serial_print "Access Control Example v0.1" ;;
   ShowReaderDetails v ;;
   setup_wipe_check fuel ;;
   setup_define_master fuel ;;
   setup_load_master).
Proof. reflexivity. Qed.

Lemma Serial_print_eq m s : Serial_print m s = (Ret tt, emit (Serial m) s).
Proof. reflexivity. Qed.

Lemma delay_eq ms s : delay ms s = (Ret tt, emit (Delay ms) s).
Proof. reflexivity. Qed.

Lemma EEPROM_read_eq i s : EEPROM_read i s = (Ret (peek (eeprom s) i), s).
Proof. reflexivity. Qed.

Lemma EEPROM_write_eq i v s :
  EEPROM_write i v s = (Ret tt, set_eeprom (poke (eeprom s) i v) s).
Proof. reflexivity. Qed.

Lemma env_emit e s : env (emit e s) = env s.
Proof. reflexivity. Qed.

Lemma env_set_n_wipeB n s : env (set_n_wipeB n s) = env s.
Proof. reflexivity. Qed.

Lemma n_wipeB_emit e s : n_wipeB (emit e s) = n_wipeB s.
Proof. reflexivity. Qed.

Lemma n_wipeB_set_n_wipeB n s : n_wipeB (set_n_wipeB n s) = n.
Proof. reflexivity. Qed.

Ltac step_print :=
  first [ rewrite (bind_Ret _ _ _ _ _ (Serial_print_eq _ _))
        | rewrite (bind_Ret _ _ _ _ _ (delay_eq _ _)) ].

Lemma setup_wipe_check_stuck fuel s :
  wipeB_level (env s) (n_wipeB s) = LOW ->
  wipeB_level (env s) (S (n_wipeB s)) = LOW ->
  exists s', setup_wipe_check fuel s = (Timeout, s').
Proof.
  intros Hw1 Hw2. unfold setup_wipe_check.
  rewrite (bind_Ret _ _ _ _ _ (digitalRead_wipeB _)).
  rewrite Hw1. unfold LOW. cbn [Bool.eqb when].
  do 4 step_print.
  rewrite (bind_Ret _ _ _ _ _ (digitalRead_wipeB _)).
  rewrite !env_emit, env_set_n_wipeB, !n_wipeB_emit, n_wipeB_set_n_wipeB.
  rewrite Hw2. unfold LOW. cbn [Bool.eqb].
  step_print.
  eexists. apply bind_Timeout. apply setup_wipe_eq. lia.
Qed.

Lemma setup_wipe_check_released fuel s :
  wipeB_level (env s) (n_wipeB s) = HIGH ->
  setup_wipe_check fuel s = (Ret tt, set_n_wipeB (S (n_wipeB s)) s).
Proof.
  intros Hw. unfold setup_wipe_check.
  rewrite (bind_Ret _ _ _ _ _ (digitalRead_wipeB _)).
  rewrite Hw. reflexivity.
Qed.


Lemma setup_load_master_eq s :
  exists s', setup_load_master s = (Ret tt, s') /\
    masterCard s' = slot (eeprom s) 0 /\ eeprom s' = eeprom s /\
    trace s' = ready_events (slot (eeprom s) 0) ++ trace s /\
    programMode s' = programMode s /\ matchF s' = matchF s /\
    readCard s' = readCard s /\ n_picc s' = n_picc s /\ n_wipeB s' = n_wipeB s.
Proof. eexists. split; [reflexivity|]. repeat split. Qed.

Lemma setup_define_master_defined fuel s :
  peek (eeprom s) 1 = 143 -> setup_define_master fuel s = (Ret tt, s).
Proof.
  intros H. unfold setup_define_master.
  rewrite (bind_Ret _ _ _ _ _ (EEPROM_read_eq 1 s)). rewrite H. reflexivity.
Qed.





(** X27.  The wipe loop of [setup] counts the addresses in a [uint8_t] and
    compares with [EEPROM.length()] = 1024, so it never ends.  It writes
    only zeros, never touches an address from 256 on, and after 256 steps
    the bytes 0..255 are all zero.  With a working reader and the wipe
    button held down at both reads, [setup] is caught in it: it does not
    return, whatever fuel it is given. *)
Theorem power_on_wipe_never_completes fuel v st :
  eeprom_ok st ->
  (exists st', setup_wipe fuel 0 st = (Timeout, st') /\
     (forall i, 256 <= i -> peek (eeprom st') i = peek (eeprom st) i) /\
     ((256 <= fuel)%nat -> forall i, 0 <= i < 256 -> peek (eeprom st') i = 0)) /\
  (reader_alive v ->
   wipeB_level (env st) (n_wipeB st) = LOW ->
   wipeB_level (env st) (S (n_wipeB st)) = LOW ->
   fst (setup fuel v st) = Timeout).
Proof.
  intros Hok. split.
  - exists (set_eeprom (wiped fuel 0 (eeprom st)) st).
    split; [apply setup_wipe_eq; lia|]. cbn [eeprom set_eeprom]. split.
    + intros i Hi. apply wiped_beyond; lia.
    + intros Hf i Hi. apply wiped_reaches; try lia; [exact Hok|].
      unfold ahead. destruct (Z.leb_spec 0 i); lia.
  - intros Ha Hw1 Hw2.
    destruct (ShowReaderDetails_alive v (emit (Serial "Access Control Example v0.1") st) Ha)
      as (t & E).
    rewrite setup_eq. unfold bind at 1, Serial_print at 1, modify at 1.
    rewrite (bind_Ret _ _ _ _ _ E).
    destruct (setup_wipe_check_stuck fuel
                (emit (Serial EmptyString) (emit (Serial t) (emit (SerialNum v)
                   (emit (Serial "MFRC522 Software Version: 0x")
                      (emit (Serial "Access Control Example v0.1") st)))))) as (s' & E');
      [exact Hw1|exact Hw2|].
    now rewrite (bind_Timeout _ _ _ _ E').
Qed.

Lemma power_on_wipe_never_completes_witness :
  (exists st', setup_wipe 300 0 st_wiping = (Timeout, st') /\
     (forall i, 256 <= i -> peek (eeprom st') i = peek (eeprom st_wiping) i) /\
     ((256 <= 300)%nat -> forall i, 0 <= i < 256 -> peek (eeprom st') i = 0)) /\
  (reader_alive 146 ->
   wipeB_level (env st_wiping) (n_wipeB st_wiping) = LOW ->
   wipeB_level (env st_wiping) (S (n_wipeB st_wiping)) = LOW ->
   fst (setup 300 146 st_wiping) = Timeout).
Proof. apply (power_on_wipe_never_completes 300 146 st_wiping). vm_compute. reflexivity. Defined.

(** X28.  On a device whose master card is defined (EEPROM byte 1 is 143),
    with a working reader and the wipe button released, [setup] returns: it
    writes nothing to the EEPROM, polls no card, and leaves in [masterCard]
    the four bytes 2-5 of the EEPROM, which it prints. *)
Theorem setup_loads_master fuel v st :
  reader_alive v ->
  wipeB_level (env st) (n_wipeB st) = HIGH ->
  peek (eeprom st) 1 = 143 ->
  exists st', setup fuel v st = (Ret tt, st') /\
    eeprom st' = eeprom st /\ masterCard st' = slot (eeprom st) 0 /\
    programMode st' = programMode st /\ matchF st' = matchF st /\
    readCard st' = readCard st /\ n_picc st' = n_picc st /\
    exists t, extends (trace st) t /\
              trace st' = ready_events (slot (eeprom st) 0) ++ t.
Proof.
  intros Ha Hw Hm.
  destruct (ShowReaderDetails_alive v (emit (Serial "Access Control Example v0.1") st) Ha)
    as (t & E).
  set (s1 := emit (Serial EmptyString) (emit (Serial t) (emit (SerialNum v)
               (emit (Serial "MFRC522 Software Version: 0x")
                  (emit (Serial "Access Control Example v0.1") st))))) in *.
  destruct (setup_load_master_eq (set_n_wipeB (S (n_wipeB s1)) s1))
    as (s' & E' & H1 & H2 & H3 & H4 & H5 & H6 & H7 & _).
  exists s'. split.
  - rewrite setup_eq. step_print. rewrite (bind_Ret _ _ _ _ _ E).
    rewrite (bind_Ret _ _ _ _ _ (setup_wipe_check_released fuel s1 Hw)).
    rewrite (bind_Ret _ _ _ _ _
               (setup_define_master_defined fuel (set_n_wipeB (S (n_wipeB s1)) s1) Hm)).
    exact E'.
  - rewrite H1, H2, H3, H4, H5, H6, H7. repeat split.
    eexists. split; [|reflexivity]. eexists [_; _; _; _; _]. reflexivity.
Qed.

Lemma setup_loads_master_witness :
  let st := reset (eeprom st_three) (presenting [] (fun _ => 50)) in
  exists st', setup 5 146 st = (Ret tt, st') /\
    eeprom st' = eeprom st /\ masterCard st' = slot (eeprom st) 0 /\
    programMode st' = programMode st /\ matchF st' = matchF st /\
    readCard st' = readCard st /\ n_picc st' = n_picc st /\
    exists t, extends (trace st) t /\
              trace st' = ready_events (slot (eeprom st) 0) ++ t.
Proof.
  apply (setup_loads_master 5 146 (reset (eeprom st_three) (presenting [] (fun _ => 50)))).
  - split; discriminate.
  - reflexivity.
  - vm_compute. reflexivity.
Defined.



(** *** The size of the EEPROM *)

























(** *** Concrete runs *)

(** C2 as stated fails: with 63 records the 64th append reports success and
    lands on bytes 2-5, the master card; with 254 records the 255th reports
    success and lands on slot 63.  Nothing is refused. *)
Lemma append_at_capacity_overruns :
  (let st := enrolled 63 st_empty in
   let st' := snd (writeID 300 (user 64) st) in
   count_of st = 63 /\ fst (findID 300 (user 64) st) = Ret false /\
   fst (writeID 300 (user 64) st) = Ret tt /\
   hd (Delay 0) (trace st') = Serial msg_added /\
   count_of st' = 64 /\ slot (eeprom st) 0 = card_M /\ slot (eeprom st') 0 = user 64) /\
  (let st := enrolled 254 st_empty in
   let st' := snd (writeID 300 (user 255) st) in
   count_of st = 254 /\ fst (findID 300 (user 255) st) = Ret false /\
   fst (writeID 300 (user 255) st) = Ret tt /\
   hd (Delay 0) (trace st') = Serial msg_added /\
   count_of st' = 255 /\ slot (eeprom st') 63 = user 255).
Proof. vm_compute. repeat split. Qed.

(** C3 as stated fails with 64 records.  The 8-bit start address of slot 64
    is 2, so the 64th card lives on bytes 2-5 and not behind slot 63; the
    removal of the first card moves slots 2..63 down and fills slot 63 from
    the unwritten bytes behind it.  The card of slot 64 is not moved into
    slot 63: it was found before the removal and is not found after it. *)
Lemma removal_beyond_63_records_loses_a_card :
  let st := enrolled 64 st_empty in
  let st' := snd (deleteID 300 (user 1) st) in
  count_of st = 64 /\ slot (eeprom st) 64 = user 64 /\
  fst (findIDSLOT 300 (user 1) st) = Ret 1 /\
  fst (findIDSLOT 300 (user 64) st) = Ret 64 /\
  fst (deleteID 300 (user 1) st) = Ret tt /\
  count_of st' = 63 /\
  slot (eeprom st') 1 = user 2 /\ slot (eeprom st') 62 = user 63 /\
  slot (eeprom st') 63 = mkCard 0 0 0 0 /\
  fst (findID 300 (user 64) st) = Ret true /\
  fst (findID 300 (user 64) st') = Ret false.
Proof. vm_compute. repeat split. Qed.

Lemma deleteID_compacts_witness :
  (forall st1, findID 5 (user 2) st_three = (Ret false, st1) ->
     exists st', deleteID 5 (user 2) st_three = (Ret tt, st') /\
       eeprom st' = eeprom st_three /\
       trace st' = Serial msg_failed :: trace st_three) /\
  (forall s st1, findIDSLOT 5 (user 2) st_three = (Ret s, st1) ->
     exists st', deleteID 5 (user 2) st_three = (Ret tt, st') /\
       1 <= s <= count_of st_three /\
       compacted (eeprom st_three) (eeprom st') s /\
       trace st' = Serial msg_removed :: trace st_three).
Proof.
  apply (deleteID_compacts 5 (user 2) st_three).
  - vm_compute. reflexivity.
  - vm_compute. discriminate.
Defined.

(** C4 as stated fails for a card whose first byte is zero: it is appended,
    but the removal does not find it, so the count stays at one. *)
Lemma append_then_remove_zero_first_byte :
  let st := st_empty in
  let st2 := snd (writeID 300 card_Z st) in
  let st3 := snd (deleteID 300 card_Z st2) in
  count_of st = 0 /\ fst (findID 300 card_Z st) = Ret false /\
  fst (writeID 300 card_Z st) = Ret tt /\ count_of st2 = 1 /\ slot (eeprom st2) 1 = card_Z /\
  fst (deleteID 300 card_Z st2) = Ret tt /\
  hd (Delay 0) (trace st3) = Serial msg_failed /\
  count_of st3 = 1.
Proof. vm_compute. repeat split. Qed.

Lemma append_then_remove_witness :
  exists st2 st3,
    writeID 5 card_A st_three = (Ret tt, st2) /\
    deleteID 5 card_A st2 = (Ret tt, st3) /\
    count_of st3 = count_of st_three /\
    (forall i, 1 <= i <= count_of st_three ->
       slot (eeprom st3) i = slot (eeprom st_three) i) /\
    trace st3 = Serial msg_removed :: Serial msg_added :: trace st_three.
Proof.
  apply (append_then_remove 5 card_A st_three (snd (findID 5 card_A st_three))).
  - vm_compute. reflexivity.
  - vm_compute. split; discriminate.
  - vm_compute. discriminate.
  - vm_compute. reflexivity.
Defined.

(** C5 (the code at the failing input).  A device with 63 enrolled cards is
    in Program mode and the card 64.1.1.1 is presented.  [writeID] computes
    the start of the next slot, 63 * 4 + 6 = 258, in a [uint8_t]: the card
    is written to bytes 2-5, over the master card 77.1.2.3, and the success
    line is printed.  After the next power-up the master card in RAM is
    64.1.1.1, and the scan of the real master card is answered with the
    denial line. *)
Theorem append_overwrites_master_bytes :
  let st := set_programMode true (set_n_picc 0 (enrolled 63
     (power_on (provisioned card_M) (presenting [user 64] (fun _ => 50))))) in
  let st' := snd (loop 300 st) in
  let st'' := power_on (eeprom st') (presenting [card_M] (fun _ => 50)) in
  peek (eeprom st) 1 = 143 /\ count_of st = 63 /\ masterCard st = card_M /\
  map (peek (eeprom st)) [2; 3; 4; 5] = [77; 1; 2; 3] /\
  readCard st' = user 64 /\
  fst (loop 300 st) = Ret tt /\
  hd (Delay 0) (skipn 2 (trace st')) = Serial msg_added /\
  count_of st' = 64 /\
  map (peek (eeprom st')) [2; 3; 4; 5] = [64; 1; 1; 1] /\
  map (peek (eeprom (snd (writeID 300 (user 64) st)))) [2; 3; 4; 5] = [64; 1; 1; 1] /\
  masterCard st'' = user 64 /\
  fst (loop 300 st'') = Ret tt /\ readCard (snd (loop 300 st'')) = card_M /\
  programMode (snd (loop 300 st'')) = false /\
  hd (Delay 0) (trace (snd (loop 300 st''))) = Serial "You shall not pass".
Proof. vm_compute. repeat split. Qed.

Lemma master_bytes_untouched_witness :
  (0 <= count_of st_three <= 62 ->
   peek (eeprom (snd (writeID 5 card_A st_three))) 2 = peek (eeprom st_three) 2) /\
  (count_of st_three <= 63 ->
   peek (eeprom (snd (deleteID 5 card_A st_three))) 2 = peek (eeprom st_three) 2) /\
  (programMode st_three = false ->
   eeprom (snd (loop_dispatch 5 st_three)) = eeprom st_three) /\
  (forall i, 0 <= i -> i <> 1 ->
     peek (eeprom (snd (loop_poll 5 st_three))) i = peek (eeprom st_three) i) /\
  (0 <= count_of st_three <= 62 ->
   peek (eeprom (snd (loop 5 st_three))) 2 = peek (eeprom st_three) 2).
Proof.
  apply (master_bytes_untouched 5 card_A st_three 2).
  - vm_compute. reflexivity.
  - lia.
Defined.

Lemma closeDoor_waits_for_clearance_witness :
  (exists st', closeDoor 2 st_doorway = (Timeout, st') /\
     trace st' = wait_trace (samples st_doorway 2) ++ Delay 2000 :: trace st_doorway /\
     level motLow (trace st') = level motLow (trace st_doorway)) /\
  (exists st', closeDoor 5 st_doorway = (Ret tt, st') /\
     trace st' = close_events ++ wait_trace (samples st_doorway 3) ++
                 Delay 2000 :: trace st_doorway).
Proof.
  split.
  - apply (closeDoor_waits_for_clearance 2 st_doorway).
    intros [|[|i]] Hi; [reflexivity|reflexivity|lia].
  - apply (closeDoor_waits_for_clearance 5 st_doorway) with (n := 2%nat).
    + lia.
    + intros [|[|i]] Hi; [reflexivity|reflexivity|lia].
    + reflexivity.
Defined.

Lemma motor_outputs_exclusive_witness :
  always_interlocked (trace (snd (run 3 st_doorway))) = true /\
  (forall n s, exists d, trace (snd (loop n s)) = d ++ clear_events ++ trace s).
Proof.
  apply (motor_outputs_exclusive 3 st_doorway). split; reflexivity.
Defined.

Lemma smoke_forces_open_and_halts_witness :
  (exists st', checkSmoke st_smoky = (Halt, st') /\
     trace st' = open_events ++ Serial msg_alarm :: trace st_smoky /\
     eeprom st' = eeprom st_smoky /\ programMode st' = programMode st_smoky /\
     n_picc st' = n_picc st_smoky /\ n_userOpen st' = n_userOpen st_smoky /\
     n_wipeB st' = n_wipeB st_smoky /\
     forall B (rest : unit -> M B), bind checkSmoke rest st_smoky = (Halt, st')) /\
  (exists st' t, loop_poll (S 1) st_smoky = (Halt, st') /\
     trace st' = open_events ++ Serial msg_alarm :: t /\ extends (trace st_smoky) t /\
     eeprom st' = eeprom st_smoky /\ programMode st' = programMode st_smoky /\
     n_picc st' = S (n_picc st_smoky) /\ n_userOpen st' = n_userOpen st_smoky /\
     n_wipeB st' = n_wipeB st_smoky /\
     forall B (rest : unit -> M B), bind (loop_poll (S 1)) rest st_smoky = (Halt, st')).
Proof.
  apply (smoke_forces_open_and_halts 1 st_smoky 2); [lia|reflexivity].
Defined.
